(** * jsline-api: the LINE client session, its directory and its long-poll cycle

    A shallow embedding of [src/lib/clients.js] (class [LineClient]) and of the
    model classes [LineMessage], [LineGroup], [LineRoom], [LineContact], with
    the properties of the session/synchronisation engine stated over it.

    Conventions of the embedding.
    - A JavaScript array is a [list]; the [undefined] result of a lookup is
      [None]; a property compared with [===] that may hold [null] or be
      missing is a [JS.atom].
    - [revision] is the number [getLastOpRevision] and [longPoll] store, an
      integer.
    - A promise is a value of type [promise]: either already settled, or
      waiting for the reply of one remote call, with the callback that runs
      when the reply arrives.  Callbacks never run inside the synchronous
      code that registered them: they receive the client state of the moment
      they run.
    - A generator is a value of type [generator]: it is resumed by the driver
      with [Next v] (the method [next]) or [ThrowIn e] (the method [throw]).
    - The remote gateway ([LineAPI], the methods whose names start with an
      underscore) is not part of the embedding: its calls are [request]s and
      its answers are supplied from outside. *)

From Stdlib Require Import List String Ascii Bool ZArith QArith Lia.
From Stdlib Require Import Permutation Sorted.
Import ListNotations.
Local Open Scope string_scope.
Local Open Scope list_scope.
Local Open Scope Z_scope.
Set Warnings "-register-all".

(** ** JavaScript numbers, as far as the code needs them *)

Module JS.

(** The value of a numeric expression.  Finite values are kept exact (a
    rational), so two numeric strings that denote different reals closer
    than the precision of a double, or beyond its range, are told apart
    here although a double would not. *)
Inductive number : Type :=
| NaN
| Infinity (negative : bool)
| Fin (q : Q).

Definition of_Z (z : Z) : number := Fin (inject_Z z).
Definition of_nat (n : nat) : number := of_Z (Z.of_nat n).

(** [x - y] *)
Definition sub (x y : number) : number :=
  match x, y with
  | NaN, _ | _, NaN => NaN
  | Infinity a, Infinity b => if Bool.eqb a b then NaN else Infinity a
  | Infinity a, Fin _ => Infinity a
  | Fin _, Infinity b => Infinity (negb b)
  | Fin a, Fin b => Fin (a - b)
  end.

(** [x < y]: false as soon as one side is [NaN]. *)
Definition lt (x y : number) : bool :=
  match x, y with
  | NaN, _ | _, NaN => false
  | Infinity a, Infinity b => a && negb b
  | Infinity a, Fin _ => a
  | Fin _, Infinity b => negb b
  | Fin a, Fin b => match Qcompare a b with Lt => true | _ => false end
  end.

(** Sign of a comparator's result as [Array.prototype.sort] reads it: a
    [NaN] result counts as [+0]. *)
Definition sign (x : number) : comparison :=
  match x with
  | NaN => Eq
  | Infinity true => Lt
  | Infinity false => Gt
  | Fin q => Qcompare q 0
  end.

(** *** [ToNumber] applied to a string (StringToNumber) *)

Definition is_ws (c : ascii) : bool :=
  let n := nat_of_ascii c in
  ((9 <=? n) && (n <=? 13))%nat || (n =? 32)%nat.

Fixpoint ltrim (l : list ascii) : list ascii :=
  match l with
  | c :: t => if is_ws c then ltrim t else l
  | [] => []
  end.

Fixpoint rtrim (l : list ascii) : list ascii :=
  match l with
  | [] => []
  | c :: t =>
      match rtrim t with
      | [] => if is_ws c then [] else [c]
      | t' => c :: t'
      end
  end.

(** Value of a digit in a radix up to 16, [None] for any other character. *)
Definition digit (radix : Z) (c : ascii) : option Z :=
  let n := Z.of_nat (nat_of_ascii c) in
  let v :=
    if (48 <=? n) && (n <=? 57) then Some (n - 48)
    else if (97 <=? n) && (n <=? 102) then Some (n - 87)
    else if (65 <=? n) && (n <=? 70) then Some (n - 55)
    else None in
  match v with
  | Some d => if d <? radix then Some d else None
  | None => None
  end.

(** Reads the longest run of digits: the accumulated value, how many digits
    were read, and what follows. *)
Fixpoint digits (radix : Z) (acc : Z) (n : nat) (l : list ascii)
  : Z * nat * list ascii :=
  match l with
  | c :: t =>
      match digit radix c with
      | Some d => digits radix (acc * radix + d) (S n) t
      | None => (acc, n, l)
      end
  | [] => (acc, n, [])
  end.

(** A whole string of at least one digit in the given radix. *)
Definition radix_literal (radix : Z) (l : list ascii) : number :=
  match digits radix 0 0%nat l with
  | (v, S _, []) => of_Z v
  | _ => NaN
  end.

Definition pow10 (e : Z) : Q :=
  if 0 <=? e then inject_Z (10 ^ e) else / inject_Z (10 ^ (- e)).

(** The exponent part, [e] or [E], an optional sign and at least one digit;
    an empty rest is exponent zero. *)
Definition exponent (l : list ascii) : option Z :=
  match l with
  | [] => Some 0
  | c :: t =>
      if (Ascii.eqb c "e" || Ascii.eqb c "E")%char then
        let '(neg, t') :=
          match t with
          | s :: u =>
              if Ascii.eqb s "-"%char then (true, u)
              else if Ascii.eqb s "+"%char then (false, u)
              else (false, t)
          | [] => (false, t)
          end in
        match digits 10 0 0%nat t' with
        | (v, S _, []) => Some (if neg then - v else v)
        | _ => None
        end
      else None
  end.

(** An unsigned decimal literal: digits, an optional fraction, an optional
    exponent, with a digit on at least one side of the point. *)
Definition unsigned_decimal (l : list ascii) : number :=
  let '(ip, ni, r1) := digits 10 0 0%nat l in
  let '(m, nf, r2, ok) :=
    match r1 with
    | c :: t =>
        if Ascii.eqb c "."%char then
          let '(m, nf, r2) := digits 10 ip 0%nat t in
          (m, nf, r2, negb ((ni =? 0)%nat && (nf =? 0)%nat))
        else (ip, 0%nat, r1, negb (ni =? 0)%nat)
    | [] => (ip, 0%nat, r1, negb (ni =? 0)%nat)
    end in
  if ok then
    match exponent r2 with
    | Some e => Fin (inject_Z m * pow10 (e - Z.of_nat nf))
    | None => NaN
    end
  else NaN.

Definition negate (x : number) : number :=
  match x with
  | NaN => NaN
  | Infinity b => Infinity (negb b)
  | Fin q => Fin (- q)
  end.

Fixpoint chars_eqb (a b : list ascii) : bool :=
  match a, b with
  | [], [] => true
  | x :: a', y :: b' => Ascii.eqb x y && chars_eqb a' b'
  | _, _ => false
  end.

Definition signed_decimal (l : list ascii) : number :=
  let body (u : list ascii) :=
    if chars_eqb u (list_ascii_of_string "Infinity")
    then Infinity false else unsigned_decimal u in
  match l with
  | c :: t =>
      if Ascii.eqb c "-"%char then negate (body t)
      else if Ascii.eqb c "+"%char then body t
      else body l
  | [] => NaN
  end.

(** [ToNumber s] for a string [s] of ASCII characters. *)
Definition ToNumber (s : string) : number :=
  match rtrim (ltrim (list_ascii_of_string s)) with
  | [] => of_Z 0
  | z :: x :: t =>
      if Ascii.eqb z "0"%char then
        if (Ascii.eqb x "x" || Ascii.eqb x "X")%char then radix_literal 16 t
        else if (Ascii.eqb x "o" || Ascii.eqb x "O")%char then radix_literal 8 t
        else if (Ascii.eqb x "b" || Ascii.eqb x "B")%char then radix_literal 2 t
        else signed_decimal (z :: x :: t)
      else signed_decimal (z :: x :: t)
  | l => signed_decimal l
  end.

(** [Array.prototype.toString]: the elements' strings joined by commas. *)
Definition Array_toString (elements : list string) : string :=
  String.concat "," elements.

(** *** [Array.prototype.sort] with a comparator

    The sort is stable (ECMAScript 2019); it is written as an insertion
    sort.  Its result is the one of any conforming engine when the
    comparator is consistent; with an inconsistent comparator an engine may
    return another permutation. *)
Section Sort.
Context {A : Type} (comparefn : A -> A -> number).

(** Puts [x] in front of the first element it does not have to follow. *)
Fixpoint insert (x : A) (l : list A) : list A :=
  match l with
  | [] => [x]
  | y :: t =>
      match sign (comparefn x y) with
      | Gt => y :: insert x t
      | _ => x :: l
      end
  end.

Fixpoint sort (l : list A) : list A :=
  match l with
  | [] => []
  | x :: t => insert x (sort t)
  end.
End Sort.

(** *** Property values that are compared, never computed with *)

(** What an identifier-valued property can hold. *)
Inductive atom : Type :=
| undefined
| null
| str (s : string).

(** [x === y] on such values. *)
Definition strict_eq (x y : atom) : bool :=
  match x, y with
  | undefined, undefined => true
  | null, null => true
  | str a, str b => String.eqb a b
  | _, _ => false
  end.

(** [ToNumber] on such values. *)
Definition atom_ToNumber (x : atom) : number :=
  match x with
  | undefined => NaN
  | null => of_Z 0
  | str s => ToNumber s
  end.

End JS.


(** ** Structures of the remote service (package curve-thrift)

    Only the fields the client reads. *)

Module OpType.
Inductive t : Type :=
| END_OF_OPERATION
| SEND_MESSAGE
| RECEIVE_MESSAGE
| OTHER (value : Z).
End OpType.

Module MIDType.
Inductive t : Type := USER | ROOM | GROUP.

Definition eqb (a b : t) : bool :=
  match a, b with
  | USER, USER | ROOM, ROOM | GROUP, GROUP => true
  | _, _ => false
  end.
End MIDType.

(** A contact record.  Its [mid] is a string: a record that came without
    one (a [null] mid) is outside the embedding, and so is a room record
    without [mid]. *)
Module Contact.
Record t : Type := mk {
  mid : string;
  displayName : string;
  picturePath : string;
  statusMessage : string
}.
End Contact.

Module Group.
Record t : Type := mk {
  id : string;
  name : string;
  creator : option Contact.t;
  invitee : option (list Contact.t);
  members : option (list Contact.t)
}.
End Group.

Module Room.
Record t : Type := mk {
  mid : string;
  contacts : option (list Contact.t)
}.
End Room.

(** A message.  The client reads the sender under two property names,
    [from_] (in [longPoll]) and [_from] (in the [LineMessage] constructor);
    both are kept, each with the value the property lookup gives. *)
Module Message.
Record t : Type := mk {
  id : string;
  text : string;
  hasContent : bool;
  contentType : Z;
  contentPreview : option string;
  contentMetadata : list (string * string);
  from_ : JS.atom;
  _from : JS.atom;
  to : JS.atom;
  toType : MIDType.t;
  createdTime : Z
}.
End Message.

Module Operation.
Record t : Type := mk {
  type : OpType.t;
  revision : Z;
  message : option Message.t
}.
End Operation.

Module MessageBox.
Record t : Type := mk {
  id : string;
  midType : MIDType.t
}.
End MessageBox.

Module MessageBoxWrapUp.
Record t : Type := mk { messageBox : MessageBox.t }.
End MessageBoxWrapUp.

Module Channel.
Record t : Type := mk {
  messageBoxWrapUpList : option (list MessageBoxWrapUp.t)
}.
End Channel.

(** ** The model classes *)

Module LineContact.
Record t : Type := mk {
  id : string;
  name : string;
  iconPath : string;
  statusMessage : string
}.

(** [toString] *)
Definition toString (c : t) : string :=
  ("<LineContact " ++ id c ++ " " ++ name c ++ ">")%string.
End LineContact.

Module LineGroup.
Record t : Type := mk {
  isJoined : bool;
  id : JS.atom;
  name : JS.atom;
  creator : option LineContact.t;
  invitee : list LineContact.t;
  members : list LineContact.t
}.
End LineGroup.

Module LineRoom.
Record t : Type := mk {
  id : string;
  contacts : list LineContact.t
}.
End LineRoom.

(** What a sender or a receiver resolves to. *)
Inductive entity : Type :=
| AContact (c : LineContact.t)
| ARoom (r : LineRoom.t)
| AGroup (g : LineGroup.t).

Module LineMessage.
Record t : Type := mk {
  id : string;
  text : string;
  hasContent : bool;
  contentType : Z;
  contentPreview : option string;
  contentMetaData : list (string * string);
  sender : option entity;
  receiver : option entity;
  toType : MIDType.t;
  createdTime : Z
}.
End LineMessage.

(** ** Errors, remote calls, promises *)

Inductive error : Type :=
| TalkException (code : Z) (reason : string)
| Error (message : string)
| TypeError (message : string).

Inductive settled (A : Type) : Type :=
| Fulfilled (a : A)
| Rejected (e : error).
Arguments Fulfilled {A} a.
Arguments Rejected {A} e.

(** The calls of the remote gateway, under the names of its methods. *)
Inductive request : Type :=
| _getLastOpRevision
| _getProfile
| _getGroups (groupIds : list string)
| _getAllContactIds
| _getContacts (contactIds : list string)
| _getGroupIdsJoined
| _getGroupIdsInvited
| _getMessageBoxCompactWrapUpList (start count : Z)
| _getRoom (id : string)
| _createGroup (name : string) (ids : list string)
| _inviteIntoGroup (id : JS.atom) (contactIds : list string)
| _acceptGroupInvitation (id : JS.atom)
| _leaveGroup (id : JS.atom)
| _createRoom (ids : list string)
| _inviteIntoRoom (id : string) (contactIds : list string)
| _leaveRoom (id : string)
| _sendMessage (message : Message.t) (seq : Z)
| _sendChatChecked (consumer lastMessageId : string) (seq : Z)
| _getMessageBoxCompactWrapUp (id : string)
| _getRecentMessages (id : string) (count : Z)
| _fetchOperations (revision count : Z).

(** What each call answers when it succeeds. *)
Definition reply (q : request) : Type :=
  match q with
  | _getLastOpRevision => Z
  | _getProfile => Contact.t
  | _getGroups _ => list Group.t
  | _getAllContactIds => list string
  | _getContacts _ => list Contact.t
  | _getGroupIdsJoined => list string
  | _getGroupIdsInvited => list string
  | _getMessageBoxCompactWrapUpList _ _ => Channel.t
  | _getRoom _ => Room.t
  | _createGroup _ _ => Group.t
  | _inviteIntoGroup _ _ => unit
  | _acceptGroupInvitation _ => unit
  | _leaveGroup _ => unit
  | _createRoom _ => Room.t
  | _inviteIntoRoom _ _ => unit
  | _leaveRoom _ => unit
  | _sendMessage _ _ => Message.t
  | _sendChatChecked _ _ _ => unit
  | _getMessageBoxCompactWrapUp _ => MessageBoxWrapUp.t
  | _getRecentMessages _ _ => list Message.t
  | _fetchOperations _ _ => option (list Operation.t)
  end.

(** A variable that holds a sender or a receiver in [longPoll]. *)
Inductive ref : Type :=
| Undefined
| Object (e : entity)
| String_ (s : string).

(** The values promises are fulfilled with and generators return. *)
Inductive value : Type :=
| VUndefined
| VBoolean (b : bool)
| VNumber (z : Z)
| VError (e : error)
| VContact (c : LineContact.t)
| VContacts (l : list LineContact.t)
| VGroup (g : LineGroup.t)
| VGroups (l : list LineGroup.t)
| VRoom (r : LineRoom.t)
| VRooms (l : list LineRoom.t)
| VMessageBox (b : MessageBox.t)
| VMessages (l : list LineMessage.t)
| VReply (q : request) (r : reply q)
| VOperation (o : Operation.t)
| VCycle (sender receiver : ref) (message : LineMessage.t) (revision : Z).

(** Lines written to the console.  [uncaught e] is the report of the error
    [e] thrown out of a promise chain by [done]: an uncaught exception,
    which ends a Node process unless the application handles it. *)
Inductive logentry : Type :=
| console_error (e : error)
| console_log_op (type : OpType.t)
| console_log_done (channel : option Channel.t)
| alertOrConsoleLog (text : string)
| uncaught (e : error).

(** The state of a [LineClient]. *)
Module LineClient.
Record t : Type := mk {
  id : option string;
  password : option string;
  authToken : option string;
  certificate : option string;
  revision : Z;
  profile : option LineContact.t;
  contacts : list LineContact.t;
  rooms : list LineRoom.t;
  groups : list LineGroup.t
}.

Definition set_revision (r : Z) (c : t) : t :=
  mk (id c) (password c) (authToken c) (certificate c) r (profile c)
     (contacts c) (rooms c) (groups c).
Definition set_profile (p : LineContact.t) (c : t) : t :=
  mk (id c) (password c) (authToken c) (certificate c) (revision c) (Some p)
     (contacts c) (rooms c) (groups c).
Definition set_contacts (l : list LineContact.t) (c : t) : t :=
  mk (id c) (password c) (authToken c) (certificate c) (revision c) (profile c)
     l (rooms c) (groups c).
Definition set_rooms (l : list LineRoom.t) (c : t) : t :=
  mk (id c) (password c) (authToken c) (certificate c) (revision c) (profile c)
     (contacts c) l (groups c).
Definition set_groups (l : list LineGroup.t) (c : t) : t :=
  mk (id c) (password c) (authToken c) (certificate c) (revision c) (profile c)
     (contacts c) (rooms c) l.
(** [this.authToken = null; this.certificate = null] *)
Definition clear_auth (c : t) : t :=
  mk (id c) (password c) None None (revision c) (profile c)
     (contacts c) (rooms c) (groups c).
End LineClient.

(** A promise: settled, or waiting for the reply of a remote call that has
    been issued.  The callback receives the reply and the client of the
    moment it runs; it gives the client it leaves, the promises it started
    and dropped, what it printed, and the promise that continues the
    chain. *)
Inductive promise : Type :=
| Settled (r : settled value)
| Await (q : request)
    (k : settled (reply q) -> LineClient.t ->
         LineClient.t * list promise * list logentry * promise).

(** What a method call leaves behind, in the same shape. *)
Definition outcome : Type :=
  (LineClient.t * list promise * list logentry * promise)%type.

Definition result (o : outcome) : promise := snd o.
Definition printed (o : outcome) : list logentry := snd (fst o).
Definition started (o : outcome) : list promise := snd (fst (fst o)).
Definition client (o : outcome) : LineClient.t := fst (fst (fst o)).

(** The remote calls a promise is waiting for at this moment. *)
Definition waiting (p : promise) : list request :=
  match p with
  | Settled _ => []
  | Await q _ => [q]
  end.

(** All remote calls in flight after a method call. *)
Definition issued (o : outcome) : list request :=
  flat_map waiting (started o) ++ waiting (result o).

(** A value for [config.LINE_OS_URL], for the examples. *)
Definition a_host : string := "os.line.example".

Section Client.

(** [config.LINE_OS_URL], a constant of the configuration module, which is
    not part of the embedding. *)
Variable LINE_OS_URL : string.

(** ** Constructors of the model classes *)

Definition new_LineContact (contact : Contact.t) : LineContact.t :=
  {| LineContact.id := Contact.mid contact;
     LineContact.name := Contact.displayName contact;
     LineContact.iconPath :=
       ("http://" ++ LINE_OS_URL ++ Contact.picturePath contact
          ++ "/preview")%string;
     LineContact.statusMessage := Contact.statusMessage contact |}.

Definition new_LineGroup (group : option Group.t) (isJoined : bool)
  : LineGroup.t :=
  match group with
  | None =>
      {| LineGroup.isJoined := isJoined;
         LineGroup.id := JS.null;
         LineGroup.name := JS.null;
         LineGroup.creator := None;
         LineGroup.invitee := [];
         LineGroup.members := [] |}
  | Some group =>
      {| LineGroup.isJoined := isJoined;
         LineGroup.id := JS.str (Group.id group);
         LineGroup.name := JS.str (Group.name group);
         LineGroup.creator := option_map new_LineContact (Group.creator group);
         LineGroup.invitee :=
           match Group.invitee group with
           | Some l => map new_LineContact l
           | None => []
           end;
         LineGroup.members :=
           match Group.members group with
           | Some l => map new_LineContact l
           | None => []
           end |}
  end.

Definition new_LineRoom (room : Room.t) : LineRoom.t :=
  {| LineRoom.id := Room.mid room;
     LineRoom.contacts :=
       match Room.contacts room with
       | Some l => map new_LineContact l
       | None => []
       end |}.

(** ** Membership, as the model classes compute it *)

(** [x === id] for [x] a [LineContact] object and [id] a string.  Strict
    equality does not convert its operands ([valueOf] is not consulted):
    an object and a string are of different types and never equal. *)
Definition object_strict_eq_string (x : LineContact.t) (id : string) : bool :=
  false.

(** [array.indexOf(id)] over an array of [LineContact] objects: the first
    index whose element is strictly equal to [id], or -1. *)
Fixpoint indexOf_from (i : Z) (array : list LineContact.t) (id : string) : Z :=
  match array with
  | [] => -1
  | x :: t =>
      if object_strict_eq_string x id then i else indexOf_from (i + 1) t id
  end.

Definition indexOf (array : list LineContact.t) (id : string) : Z :=
  indexOf_from 0 array id.

(** [LineGroup.getMemberIds] and [LineRoom.getContactIds] *)
Definition getMemberIds (this : LineGroup.t) : list string :=
  map LineContact.id (LineGroup.members this).

Definition getContactIds (this : LineRoom.t) : list string :=
  map LineContact.id (LineRoom.contacts this).

(** [LineGroup._containId]; [this.members] is always an array. *)
Definition LineGroup_containId (this : LineGroup.t) (id : string) : bool :=
  true && (0 <=? indexOf (LineGroup.members this) id).

(** [LineRoom._containId]; [this.contacts] is always an array. *)
Definition LineRoom_containId (this : LineRoom.t) (id : string) : bool :=
  true && (0 <=? indexOf (LineRoom.contacts this) id).

(** The getter [rooms] of a [LineContact]: it reads the rooms its client
    holds when it is called. *)
Definition LineContact_rooms (_client : LineClient.t) (this : LineContact.t)
  : list LineRoom.t :=
  filter (fun room => LineRoom_containId room (LineContact.id this))
         (LineClient.rooms _client).

(** The getter [groups] of a [LineContact]: a [map], which gives one boolean
    per group of the client. *)
Definition LineContact_groups (_client : LineClient.t) (this : LineContact.t)
  : list bool :=
  map (fun group => LineGroup_containId group (LineContact.id this))
      (LineClient.groups _client).

(** ** Lookups of [LineClient] *)

Definition getContactByName (this : LineClient.t) (name : string)
  : option LineContact.t :=
  find (fun c => String.eqb (LineContact.name c) name)
       (LineClient.contacts this).

Definition getContactById (this : LineClient.t) (id : JS.atom)
  : option LineContact.t :=
  find (fun c => JS.strict_eq (JS.str (LineContact.id c)) id)
       (LineClient.contacts this).

Definition getGroupByName (this : LineClient.t) (name : JS.atom)
  : option LineGroup.t :=
  find (fun g => JS.strict_eq (LineGroup.name g) name)
       (LineClient.groups this).

Definition getGroupById (this : LineClient.t) (id : JS.atom)
  : option LineGroup.t :=
  find (fun g => JS.strict_eq (LineGroup.id g) id) (LineClient.groups this).

Definition getRoomById (this : LineClient.t) (id : JS.atom)
  : option LineRoom.t :=
  find (fun r => JS.strict_eq (JS.str (LineRoom.id r)) id)
       (LineClient.rooms this).

(** [a || b || c] on lookups: an object is truthy, [undefined] is not. *)
Definition getContactOrRoomOrGroupById (this : LineClient.t) (id : JS.atom)
  : option entity :=
  match getContactById this id with
  | Some c => Some (AContact c)
  | None =>
      match getRoomById this id with
      | Some r => Some (ARoom r)
      | None =>
          match getGroupById this id with
          | Some g => Some (AGroup g)
          | None => None
          end
      end
  end.

Definition new_LineMessage (client : LineClient.t) (message : Message.t)
  : LineMessage.t :=
  {| LineMessage.id := Message.id message;
     LineMessage.text := Message.text message;
     LineMessage.hasContent := Message.hasContent message;
     LineMessage.contentType := Message.contentType message;
     LineMessage.contentPreview := Message.contentPreview message;
     LineMessage.contentMetaData := Message.contentMetadata message;
     LineMessage.sender :=
       getContactOrRoomOrGroupById client (Message._from message);
     LineMessage.receiver :=
       getContactOrRoomOrGroupById client (Message.to message);
     LineMessage.toType := Message.toType message;
     LineMessage.createdTime := Message.createdTime message |}.

Definition getLineMessageFromMessage (this : LineClient.t)
  (messages : list Message.t) : list LineMessage.t :=
  map (new_LineMessage this) messages.

(** ** The methods of [LineClient] that talk to the remote service *)

(** [!!this.authToken] *)
Definition _checkAuth (this : LineClient.t) : bool :=
  match LineClient.authToken this with
  | Some token => negb (String.eqb token "")
  | None => false
  end.

(** A call that changes nothing, starts nothing and prints nothing. *)
Definition only (this : LineClient.t) (p : promise) : outcome :=
  (this, [], [], p).

(** [Promise.reject(new Error('Please Login first'))] *)
Definition please_login : promise :=
  Settled (Rejected (Error "Please Login first")).

Definition resolve (v : value) : promise := Settled (Fulfilled v).
Definition reject (e : error) : promise := Settled (Rejected e).

(** The promise of a remote call handed to the caller as it is. *)
Definition remote (q : request) : promise :=
  Await q (fun r this =>
    only this
      match r with
      | Fulfilled a => resolve (VReply q a)
      | Rejected e => reject e
      end).

Definition getLastOpRevision (this : LineClient.t) : outcome :=
  if _checkAuth this then
    only this (Await _getLastOpRevision (fun r this =>
      match r with
      | Fulfilled revision =>
          only (LineClient.set_revision revision this)
               (resolve (VNumber revision))
      | Rejected e => only this (reject e)
      end))
  else only this please_login.

Definition getProfile (this : LineClient.t) : outcome :=
  if _checkAuth this then
    only this (Await _getProfile (fun r this =>
      match r with
      | Fulfilled profile =>
          let p := new_LineContact profile in
          only (LineClient.set_profile p this) (resolve (VContact p))
      | Rejected e => only this (reject e)
      end))
  else only this please_login.

(** The comparators [(a, b) => a.id - b.id]. *)
Definition contact_comparefn (a b : LineContact.t) : JS.number :=
  JS.sub (JS.ToNumber (LineContact.id a)) (JS.ToNumber (LineContact.id b)).

Definition group_comparefn (a b : LineGroup.t) : JS.number :=
  JS.sub (JS.atom_ToNumber (LineGroup.id a))
         (JS.atom_ToNumber (LineGroup.id b)).

Definition addGroupsWithIds (this : LineClient.t) (groupIds : list string)
  (isJoined : bool) : outcome :=
  if _checkAuth this then
    only this (Await (_getGroups groupIds) (fun r this =>
      match r with
      | Fulfilled newGroups =>
          let newGroupsContext :=
            map (fun group => new_LineGroup (Some group) isJoined) newGroups in
          let groups :=
            JS.sort group_comparefn
                    (LineClient.groups this ++ newGroupsContext) in
          only (LineClient.set_groups groups this) (resolve (VGroups groups))
      | Rejected err => only this (resolve (VError err))
      end))
  else only this please_login.

(** The [catch] of [refreshContacts]: [err.code === 8] holds for a
    [TalkException] of that code only. *)
Definition refreshContacts_catch (err : error) (this : LineClient.t)
  : outcome :=
  match err with
  | TalkException code reason =>
      if code =? 8 then
        (LineClient.clear_auth this, [],
         [alertOrConsoleLog (reason ++ ", please login again")%string],
         resolve (VError err))
      else only this (resolve (VError err))
  | _ => only this (resolve (VError err))
  end.

Definition refreshContacts (this : LineClient.t) : outcome :=
  if _checkAuth this then
    only this (Await _getAllContactIds (fun r this =>
      match r with
      | Fulfilled contactIds =>
          only this (Await (_getContacts contactIds) (fun r this =>
            match r with
            | Fulfilled contacts =>
                let contacts :=
                  JS.sort contact_comparefn (map new_LineContact contacts) in
                only (LineClient.set_contacts contacts this)
                     (resolve (VContacts contacts))
            | Rejected err => refreshContacts_catch err this
            end))
      | Rejected err => refreshContacts_catch err this
      end))
  else only this please_login.

(** [refreshGroups] starts two chains, drops them and answers at once with
    the groups it holds. *)
Definition refreshGroups (this : LineClient.t) : outcome :=
  if _checkAuth this then
    (this,
     [ Await _getGroupIdsJoined (fun r this =>
         match r with
         | Fulfilled groupIdsJoined => addGroupsWithIds this groupIdsJoined true
         | Rejected e => only this (reject e)
         end);
       Await _getGroupIdsInvited (fun r this =>
         match r with
         | Fulfilled groupIdsInvited =>
             addGroupsWithIds this groupIdsInvited false
         | Rejected e => only this (reject e)
         end) ],
     [],
     resolve (VGroups (LineClient.groups this)))
  else only this please_login.

(** *** [refreshActiveRooms] *)

(** The callback of [_getRoom]: [this.rooms.push(new LineRoom(this, room))]. *)
Definition getRoom_then (r : settled Room.t) (this : LineClient.t) : outcome :=
  match r with
  | Fulfilled room =>
      let rooms := LineClient.rooms this ++ [new_LineRoom room] in
      only (LineClient.set_rooms rooms this)
           (resolve (VNumber (Z.of_nat (List.length rooms))))
  | Rejected e => only this (reject e)
  end.

(** The number the bound [len] of the box loop compares as.  [len] is bound
    to the array itself, not to its length, so [i < len] converts the array
    to a string (its elements are plain thrift objects, each printed as
    [[object Object]]) and that string to a number. *)
Definition boxes_ToNumber (boxes : list MessageBoxWrapUp.t) : JS.number :=
  JS.ToNumber (JS.Array_toString (map (fun _ => "[object Object]") boxes)).

(** The loop [for (let i = 0, len = ...; i < len; i++)] over the boxes of a
    page, at index [i] with the boxes from [i] on in [rest]: the [_getRoom]
    calls it starts, and the error that ends it when the index runs past
    the array. *)
Fixpoint scan_boxes (i : nat) (len : JS.number)
  (rest : list MessageBoxWrapUp.t) (acc : list promise)
  : list promise * option error :=
  if JS.lt (JS.of_nat i) len then
    match rest with
    | [] =>
        (acc, Some (TypeError "Cannot read property 'messageBox' of undefined"))
    | box :: rest' =>
        let messageBox := MessageBoxWrapUp.messageBox box in
        scan_boxes (S i) len rest'
          (if MIDType.eqb (MessageBox.midType messageBox) MIDType.ROOM
           then acc ++ [Await (_getRoom (MessageBox.id messageBox)) getRoom_then]
           else acc)
    end
  else (acc, None).

(** The callbacks of a page, [then] followed by [done].  [done] has no
    handler for a rejection: it throws the error out of the chain, as an
    uncaught exception.  The embedding records it and goes on; what the
    client does after it is what an application that survives it sees. *)
Definition page_then (r : settled Channel.t) (this : LineClient.t) : outcome :=
  match r with
  | Fulfilled channel =>
      match Channel.messageBoxWrapUpList channel with
      | None => (this, [], [console_log_done None], resolve VUndefined)
      | Some boxes =>
          match scan_boxes 0 (boxes_ToNumber boxes) boxes [] with
          | (rooms, None) =>
              (this, rooms, [console_log_done (Some channel)],
               resolve VUndefined)
          | (rooms, Some e) => (this, rooms, [uncaught e], reject e)
          end
      end
  | Rejected e => (this, [], [uncaught e], reject e)
  end.

(** The loop [while (true)], at most [fuel] times round.  [checkChannel] is
    set to 0 at the head of each round and assigned only inside callbacks,
    which have not run when the loop tests it. *)
Fixpoint refreshActiveRooms_loop (fuel : nat) (start count : Z)
  (pages : list promise) : option (list promise) :=
  match fuel with
  | O => None
  | S fuel' =>
      let checkChannel := 0 in
      let pages :=
        pages ++ [Await (_getMessageBoxCompactWrapUpList start count)
                        page_then] in
      if checkChannel =? count
      then refreshActiveRooms_loop fuel' (start + count) count pages
      else Some pages
  end.

(** [None] when the loop has not ended within [fuel] rounds. *)
Definition refreshActiveRooms (fuel : nat) (this : LineClient.t)
  : option outcome :=
  if _checkAuth this then
    match refreshActiveRooms_loop fuel 1 50 [] with
    | Some pages =>
        Some (this, pages, [], resolve (VRooms (LineClient.rooms this)))
    | None => None
    end
  else Some (only this please_login).

(** *** Groups and rooms: create, invite, leave *)

Definition createGroupWithIds (this : LineClient.t) (name : string)
  (ids : list string) : outcome :=
  if _checkAuth this then
    only this (Await (_createGroup name ids) (fun r this =>
      match r with
      | Fulfilled created =>
          let group := new_LineGroup (Some created) true in
          only (LineClient.set_groups (LineClient.groups this ++ [group]) this)
               (resolve (VGroup group))
      | Rejected e => only this (reject e)
      end))
  else only this please_login.

Definition createGroupWithContacts (this : LineClient.t) (name : string)
  (contacts : list LineContact.t) : outcome :=
  if _checkAuth this then
    let contactIds := map LineContact.id contacts in
    only this (Await (_createGroup name contactIds) (fun r this =>
      match r with
      | Fulfilled created =>
          let group := new_LineGroup (Some created) true in
          only (LineClient.set_groups (LineClient.groups this ++ [group]) this)
               (resolve (VGroup group))
      | Rejected e => only this (reject e)
      end))
  else only this please_login.

Definition inviteIntoGroup (this : LineClient.t) (group : LineGroup.t)
  (contacts : list LineContact.t) : outcome :=
  if _checkAuth this then
    let contactIds := map LineContact.id contacts in
    only this (remote (_inviteIntoGroup (LineGroup.id group) contactIds))
  else only this please_login.

Definition acceptGroupInvitation (this : LineClient.t) (group : LineGroup.t)
  : outcome :=
  if _checkAuth this then
    only this (remote (_acceptGroupInvitation (LineGroup.id group)))
  else only this please_login.

(** [gp.id !== group.id] *)
Definition other_group (group gp : LineGroup.t) : bool :=
  negb (JS.strict_eq (LineGroup.id gp) (LineGroup.id group)).

Definition leaveGroup (this : LineClient.t) (group : LineGroup.t) : outcome :=
  if _checkAuth this then
    only this (Await (_leaveGroup (LineGroup.id group)) (fun r this =>
      match r with
      | Fulfilled _ =>
          only (LineClient.set_groups
                  (filter (other_group group) (LineClient.groups this)) this)
               (resolve (VBoolean true))
      | Rejected _ => only this (resolve (VBoolean false))
      end))
  else only this please_login.

Definition createRoomWithIds (this : LineClient.t) (ids : list string)
  : outcome :=
  if _checkAuth this then
    only this (Await (_createRoom ids) (fun r this =>
      match r with
      | Fulfilled created =>
          let room := new_LineRoom created in
          only (LineClient.set_rooms (LineClient.rooms this ++ [room]) this)
               (resolve (VRoom room))
      | Rejected e => only this (reject e)
      end))
  else only this please_login.

(** The loop of [createRoomWithContacts] and of [inviteIntoRoom] pushes onto
    the array [contacts] it was given, and [contactIds] stays empty. *)
Definition createRoomWithContacts (this : LineClient.t)
  (contacts : list LineContact.t) : outcome :=
  if _checkAuth this then
    let contactIds : list string := [] in
    only this (Await (_createRoom contactIds) (fun r this =>
      match r with
      | Fulfilled created =>
          let room := new_LineRoom created in
          only (LineClient.set_rooms (LineClient.rooms this ++ [room]) this)
               (resolve (VRoom room))
      | Rejected e => only this (reject e)
      end))
  else only this please_login.

Definition inviteIntoRoom (this : LineClient.t) (room : LineRoom.t)
  (contacts : list LineContact.t) : outcome :=
  if _checkAuth this then
    let contactIds : list string := [] in
    only this (remote (_inviteIntoRoom (LineRoom.id room) contactIds))
  else only this please_login.

(** [rm.id !== room.id] *)
Definition other_room (room rm : LineRoom.t) : bool :=
  negb (String.eqb (LineRoom.id rm) (LineRoom.id room)).

Definition leaveRoom (this : LineClient.t) (room : LineRoom.t) : outcome :=
  if _checkAuth this then
    only this (Await (_leaveRoom (LineRoom.id room)) (fun r this =>
      match r with
      | Fulfilled _ =>
          only (LineClient.set_rooms
                  (filter (other_room room) (LineClient.rooms this)) this)
               (resolve (VBoolean true))
      | Rejected _ => only this (resolve (VBoolean false))
      end))
  else only this please_login.

(** *** Messages *)

Definition sendMessage (this : LineClient.t) (message : Message.t) (seq : Z)
  : outcome :=
  if _checkAuth this then only this (remote (_sendMessage message seq))
  else only this please_login.

Definition sendChatChecked (this : LineClient.t)
  (consumer lastMessageId : string) (seq : Z) : outcome :=
  if _checkAuth this then
    only this (remote (_sendChatChecked consumer lastMessageId seq))
  else only this please_login.

Definition getMessageBox (this : LineClient.t) (id : string) : outcome :=
  if _checkAuth this then
    only this (Await (_getMessageBoxCompactWrapUp id) (fun r this =>
      match r with
      | Fulfilled messageBoxWrapUp =>
          only this
               (resolve (VMessageBox
                           (MessageBoxWrapUp.messageBox messageBoxWrapUp)))
      | Rejected e => only this (reject e)
      end))
  else only this please_login.

Definition getRecentMessages (this : LineClient.t) (messageBox : MessageBox.t)
  (count : Z) : outcome :=
  if _checkAuth this then
    only this (Await (_getRecentMessages (MessageBox.id messageBox) count)
      (fun r this =>
         match r with
         | Fulfilled messages =>
             only this
                  (resolve (VMessages (getLineMessageFromMessage this messages)))
         | Rejected e => only this (reject e)
         end))
  else only this please_login.

(** ** The generator [longPoll] *)

(** How a driver resumes a suspended generator. *)
Inductive resume (A : Type) : Type :=
| Next (a : A)
| ThrowIn (e : error).
Arguments Next {A} a.
Arguments ThrowIn {A} e.

(** What the generator emits to the driver in the middle of a cycle. *)
Definition triple : Type := (ref * ref * LineMessage.t)%type.

(** A generator between two resumptions: it has returned, it has thrown, or
    it is suspended at a [yield], on the promise of a remote call in flight
    or on a promise already resolved with a triple.  Resuming gives the
    client it leaves, the promises it started and dropped, what it printed
    and the generator at its next stop; [None] when a loop has run out of
    fuel on the way. *)
Inductive generator : Type :=
| Return (v : value)
| Throw (e : error)
| Yield_remote (q : request)
    (k : resume (reply q) -> LineClient.t ->
         option (LineClient.t * list promise * list logentry * generator))
| Yield_resolved (v : triple)
    (k : resume triple -> LineClient.t ->
         option (LineClient.t * list promise * list logentry * generator)).

Definition stop : Type :=
  (LineClient.t * list promise * list logentry * generator)%type.

Definition truthy (v : ref) : bool :=
  match v with
  | Undefined => false
  | Object _ => true
  | String_ s => negb (String.eqb s "")
  end.

Definition typeof (v : ref) : string :=
  match v with
  | Undefined => "undefined"
  | Object _ => "object"
  | String_ _ => "string"
  end.

(** [s === LineGroup] for a string [s]: the class is a function, and a
    string and a function are of different types, never strictly equal. *)
Definition string_strict_eq_LineGroup (s : string) : bool := false.

Definition to_ref (o : option entity) : ref :=
  match o with
  | Some e => Object e
  | None => Undefined
  end.

(** [receiver.members]: the property exists on a group only. *)
Definition members_of (receiver : ref) : option (list LineContact.t) :=
  match receiver with
  | Object (AGroup g) => Some (LineGroup.members g)
  | _ => None
  end.

(** The number the bound [memLen] compares as: the member array itself
    (its elements print through [LineContact.toString]), or [undefined]. *)
Definition members_ToNumber (members : option (list LineContact.t))
  : JS.number :=
  match members with
  | Some l => JS.ToNumber (JS.Array_toString (map LineContact.toString l))
  | None => JS.NaN
  end.

(** The loop over the members of the receiver, at index [j] with the
    members from [j] on in [rest]: the sender it leaves, and the error that
    ends it when the index runs past the array. *)
Fixpoint scan_members (j : nat) (memLen : JS.number)
  (rest : list LineContact.t) (rawSender : JS.atom) (sender : ref)
  : ref * option error :=
  if JS.lt (JS.of_nat j) memLen then
    match rest with
    | [] => (sender, Some (TypeError "Cannot read property 'id' of undefined"))
    | member :: rest' =>
        scan_members (S j) memLen rest' rawSender
          (if JS.strict_eq (JS.str (LineContact.id member)) rawSender
           then String_ (LineContact.id member)
           else sender)
    end
  else (sender, None).

(** The sender after the block
    [if (!sender && typeof receiver === LineGroup) { ... }]. *)
Definition fallback_sender (sender receiver : ref) (rawSender : JS.atom)
  : ref * option error :=
  if negb (truthy sender) && string_strict_eq_LineGroup (typeof receiver) then
    let members := members_of receiver in
    scan_members 0 (members_ToNumber members)
                 (match members with Some l => l | None => [] end)
                 rawSender sender
  else (sender, None).

(** The promises a method call leaves in flight when its caller drops the
    promise it answers with. *)
Definition dropped (o : outcome) : list promise := started o ++ [result o].

(** The three calls [this.refreshGroups(); this.refreshContacts();
    this.refreshActiveRooms();], none of whose promises is awaited. *)
Definition repair (fuel : nat) (this : LineClient.t)
  : option (LineClient.t * list promise * list logentry) :=
  let o1 := refreshGroups this in
  let o2 := refreshContacts (client o1) in
  match refreshActiveRooms fuel (client o2) with
  | Some o3 =>
      Some (client o3,
            dropped o1 ++ dropped o2 ++ dropped o3,
            printed o1 ++ printed o2 ++ printed o3)
  | None => None
  end.

(** The [catch] clause; past it the generator returns [undefined]. *)
Definition longPoll_catch (err : error) (this : LineClient.t) : stop :=
  (this, [], [console_error err],
   match err with
   | TalkException code _ =>
       if code =? 9 then Throw (Error "user logged in on another machine")
       else Return VUndefined
   | _ => Return VUndefined
   end).

(** From the resumption of [yield Promise.resolve([sender, receiver,
    message])] to the end. *)
Definition longPoll_advance (operation : Operation.t) (sender receiver : ref)
  (message : LineMessage.t) (r : resume triple) (this : LineClient.t)
  : option stop :=
  match r with
  | Next _ =>
      let revision :=
        Z.max (Operation.revision operation) (LineClient.revision this) in
      Some (LineClient.set_revision revision this, [], [],
            Return (VCycle sender receiver message revision))
  | ThrowIn err => Some (longPoll_catch err this)
  end.

(** The case of the three message types, for an operation that carries the
    message [raw]. *)
Definition longPoll_message (fuel : nat) (operation : Operation.t)
  (raw : Message.t) (this : LineClient.t) : option stop :=
  let message := new_LineMessage this raw in
  let rawSender := Message.from_ raw in
  let rawReceiver := Message.to raw in
  let sender := to_ref (getContactOrRoomOrGroupById this rawSender) in
  let receiver := to_ref (getContactOrRoomOrGroupById this rawReceiver) in
  match fallback_sender sender receiver rawSender with
  | (_, Some err) => Some (longPoll_catch err this)
  | (sender, None) =>
      if negb (truthy sender) || negb (truthy receiver) then
        match repair fuel this with
        | Some (this, promises, lines) =>
            let sender :=
              to_ref (getContactOrRoomOrGroupById this rawSender) in
            let receiver :=
              to_ref (getContactOrRoomOrGroupById this rawReceiver) in
            Some (this, promises, lines,
                  Yield_resolved (sender, receiver, message)
                    (longPoll_advance operation sender receiver message))
        | None => None
        end
      else
        Some (this, [], [],
              Yield_resolved (sender, receiver, message)
                (longPoll_advance operation sender receiver message))
  end.

(** From the resumption of [yield this._fetchOperations(...)] on.  Every
    branch of the [switch] returns, so the [for] loop over the operations
    never reaches a second round. *)
Definition longPoll_operations (fuel : nat)
  (r : resume (option (list Operation.t))) (this : LineClient.t)
  : option stop :=
  match r with
  | ThrowIn err => Some (longPoll_catch err this)
  | Next None => Some (longPoll_catch (Error "No Operation.") this)
  | Next (Some []) => Some (this, [], [], Return VUndefined)
  | Next (Some (operation :: _)) =>
      match Operation.type operation with
      | OpType.END_OF_OPERATION
      | OpType.SEND_MESSAGE
      | OpType.RECEIVE_MESSAGE =>
          match Operation.message operation with
          | Some raw => longPoll_message fuel operation raw this
          | None =>
              Some (longPoll_catch
                      (TypeError "Cannot read property 'id' of null") this)
          end
      | OpType.OTHER _ =>
          Some (this, [], [console_log_op (Operation.type operation)],
                Return (VOperation operation))
      end
  end.

(** [longPoll(count)] run from its start to its first stop. *)
Definition longPoll (fuel : nat) (count : Z) (this : LineClient.t) : stop :=
  if _checkAuth this then
    (this, [], [],
     Yield_remote (_fetchOperations (LineClient.revision this) count)
                  (longPoll_operations fuel))
  else (this, [], [], Return VUndefined).

(** ** Running promises and generators *)

(** The remote service, as far as one run needs it: an answer to every
    call. *)
Definition service : Type := forall q : request, settled (reply q).

(** What following promises to their settlement has done. *)
Record settlement : Type := mk_settlement {
  client_after : LineClient.t;
  left_over : list promise;
  lines : list logentry;
  answered : list request;
  settled_with : settled value
}.

(** One promise followed to its settlement from the client [this], each
    remote call answered by [answer] as soon as it is reached. *)
Fixpoint settle (answer : service) (p : promise) (this : LineClient.t)
  : settlement :=
  match p with
  | Settled r => mk_settlement this [] [] [] r
  | Await q k =>
      match k (answer q) this with
      | (this1, ps1, ls1, p1) =>
          let x := settle answer p1 this1 in
          mk_settlement (client_after x) (ps1 ++ left_over x)
                        (ls1 ++ lines x) (q :: answered x) (settled_with x)
      end
  end.

(** A queue of promises followed to their settlement one after the other,
    the promises they start joining the queue; [None] when [fuel] promises
    did not exhaust it. *)
Fixpoint settle_all (fuel : nat) (answer : service) (queue : list promise)
  (this : LineClient.t) : option (LineClient.t * list logentry * list request) :=
  match queue with
  | [] => Some (this, [], [])
  | p :: rest =>
      match fuel with
      | O => None
      | S fuel' =>
          let x := settle answer p this in
          match settle_all fuel' answer (rest ++ left_over x)
                           (client_after x) with
          | Some (this', ls, qs) =>
              Some (this', lines x ++ ls, answered x ++ qs)
          | None => None
          end
      end
  end.

(** What a driver has seen of one run of a generator. *)
Record run : Type := mk_run {
  after : LineClient.t;
  in_flight : list promise;
  console : list logentry;
  fetches : list request;
  emitted : list triple;
  completion : settled value
}.

(** A driver in the manner of a coroutine runner: it answers a yielded
    promise with [next] and its value once the promise is fulfilled, with
    [throw] and its error once it is rejected, and goes on until the
    generator returns or throws. *)
Fixpoint drive (answer : service) (g : generator) (this : LineClient.t)
  : option run :=
  match g with
  | Return v => Some (mk_run this [] [] [] [] (Fulfilled v))
  | Throw e => Some (mk_run this [] [] [] [] (Rejected e))
  | Yield_remote q k =>
      let r :=
        match answer q with
        | Fulfilled a => Next a
        | Rejected e => ThrowIn e
        end in
      match k r this with
      | Some (this1, ps, ls, g1) =>
          match drive answer g1 this1 with
          | Some x =>
              Some (mk_run (after x) (ps ++ in_flight x) (ls ++ console x)
                           (q :: fetches x) (emitted x) (completion x))
          | None => None
          end
      | None => None
      end
  | Yield_resolved v k =>
      match k (Next v) this with
      | Some (this1, ps, ls, g1) =>
          match drive answer g1 this1 with
          | Some x =>
              Some (mk_run (after x) (ps ++ in_flight x) (ls ++ console x)
                           (fetches x) (v :: emitted x) (completion x))
          | None => None
          end
      | None => None
      end
  end.

(** One poll cycle: [longPoll(count)] driven to its end. *)
Definition cycle (fuel : nat) (count : Z) (answer : service)
  (this : LineClient.t) : option run :=
  match longPoll fuel count this with
  | (this1, ps, ls, g) =>
      match drive answer g this1 with
      | Some x =>
          Some (mk_run (after x) (ps ++ in_flight x) (ls ++ console x)
                       (fetches x) (emitted x) (completion x))
      | None => None
      end
  end.

(** ** Sample data: records, clients and a remote service *)

Definition record (mid : string) : Contact.t :=
  Contact.mk mid mid "/os/p" "".

Definition signed_out : LineClient.t :=
  LineClient.mk (Some "id") (Some "password") None None 100 None [] [] [].

Definition signed_in : LineClient.t :=
  LineClient.mk None None (Some "token") None 100 None [] [] [].

Definition friends : LineGroup.t :=
  new_LineGroup (Some (Group.mk "g1" "friends" None None (Some [record "u1"])))
                true.

Definition chat : LineRoom.t :=
  new_LineRoom (Room.mk "r1" (Some [record "u1"])).

(** A signed-in client that knows one group and one room, each with the
    member [u1], and no contact. *)
Definition in_a_group : LineClient.t :=
  LineClient.set_rooms [chat] (LineClient.set_groups [friends] signed_in).

Definition text_message (from to : string) : Message.t :=
  Message.mk "m1" "hello" false 0 None [] (JS.str from) JS.undefined
             (JS.str to) MIDType.USER 0.

Definition received (revision : Z) (from to : string) : Operation.t :=
  Operation.mk OpType.RECEIVE_MESSAGE revision (Some (text_message from to)).

Definition room_box (id : string) : MessageBoxWrapUp.t :=
  MessageBoxWrapUp.mk (MessageBox.mk id MIDType.ROOM).

(** A remote service that answers the fetch of operations with [fetched],
    holds the contacts [contacts] and the message boxes [boxes], which it
    hands out in pages from the 1-based index [start], and accepts
    everything else. *)
Definition a_service (fetched : settled (option (list Operation.t)))
  (contacts : list Contact.t) (boxes : list MessageBoxWrapUp.t) : service :=
  fun q =>
    match q as q' return settled (reply q') with
    | _getLastOpRevision => Fulfilled 0
    | _getProfile => Fulfilled (record "me")
    | _getGroups _ => Fulfilled []
    | _getAllContactIds => Fulfilled (map Contact.mid contacts)
    | _getContacts contactIds =>
        Fulfilled
          (flat_map
             (fun id =>
                filter (fun c => String.eqb (Contact.mid c) id) contacts)
             contactIds)
    | _getGroupIdsJoined => Fulfilled []
    | _getGroupIdsInvited => Fulfilled []
    | _getMessageBoxCompactWrapUpList start count =>
        Fulfilled
          (Channel.mk
             (Some (firstn (Z.to_nat count)
                           (skipn (Z.to_nat (start - 1)) boxes))))
    | _getRoom id => Fulfilled (Room.mk id None)
    | _createGroup name _ => Fulfilled (Group.mk name name None None None)
    | _inviteIntoGroup _ _ => Fulfilled tt
    | _acceptGroupInvitation _ => Fulfilled tt
    | _leaveGroup _ => Fulfilled tt
    | _createRoom _ => Fulfilled (Room.mk "r0" None)
    | _inviteIntoRoom _ _ => Fulfilled tt
    | _leaveRoom _ => Fulfilled tt
    | _sendMessage message _ => Fulfilled message
    | _sendChatChecked _ _ _ => Fulfilled tt
    | _getMessageBoxCompactWrapUp id =>
        Fulfilled (MessageBoxWrapUp.mk (MessageBox.mk id MIDType.USER))
    | _getRecentMessages _ _ => Fulfilled []
    | _fetchOperations _ _ => fetched
    end.

(** A remote service whose every call fails with [e]. *)
Definition a_failing_service (e : error) : service :=
  fun q => Rejected e.

(** ** Further functions of the two files *)

(** An enumeration of the thrift package ([OpType], [ContentType]): the
    names with their values, in the order [for ... in] visits the keys.
    The keys of an object are distinct. *)
Definition enumeration : Type := list (string * Z).

(** [getOpTypeNameFromValue], for the enumeration [OpType] it is given:
    the first name whose value is strictly equal to [operationValue];
    [undefined] when the loop ends without one. *)
Fixpoint getOpTypeNameFromValue (OpType : enumeration) (operationValue : Z)
  : option string :=
  match OpType with
  | [] => None
  | (operationName, value) :: rest =>
      if operationValue =? value then Some operationName
      else getOpTypeNameFromValue rest operationValue
  end.

(** [getContentTypeNameFromValue], for the enumeration [ContentType]. *)
Fixpoint getContentTypeNameFromValue (ContentType : enumeration)
  (content : Z) : option string :=
  match ContentType with
  | [] => None
  | (name, value) :: rest =>
      if content =? value then Some name
      else getContentTypeNameFromValue rest content
  end.

(** [LineGroup.acceptGroupInvitation], on a group that belongs to
    [_client]. *)
Definition LineGroup_acceptGroupInvitation (_client : LineClient.t)
  (this : LineGroup.t) : outcome :=
  if negb (LineGroup.isJoined this) then acceptGroupInvitation _client this
  else only _client (reject (Error "You are already in group")).

(** [LineGroup.leave] *)
Definition LineGroup_leave (_client : LineClient.t) (this : LineGroup.t)
  : outcome :=
  if LineGroup.isJoined this then leaveGroup _client this
  else only _client (reject (Error "You are not joined to group")).

(** [LineRoom.leave] *)
Definition LineRoom_leave (_client : LineClient.t) (this : LineRoom.t)
  : outcome :=
  leaveRoom _client this.

(** The loop of [createRoomWithContacts] and of [inviteIntoRoom],
    [for (i = 0, len = contacts.length; i < len; i++)
       contacts.push(contacts.id)], with [n] rounds to go: the arrays
    [contacts] and [contactIds] it leaves.  An array has no property [id]:
    what is pushed is [undefined], here [None]. *)
Fixpoint push_loop (n : nat) (contacts : list (option LineContact.t))
  (contactIds : list string) : list (option LineContact.t) * list string :=
  match n with
  | O => (contacts, contactIds)
  | S n' => push_loop n' (contacts ++ [None]) contactIds
  end.

(** The two arrays after the loop, for the contacts a caller passes. *)
Definition room_contactIds (contacts : list LineContact.t)
  : list (option LineContact.t) * list string :=
  push_loop (List.length contacts) (map Some contacts) [].

(** A driver that runs [n] cycles one after the other against one remote
    service: the client it ends with, and what each cycle completed
    with. *)
Fixpoint poll (n : nat) (fuel : nat) (count : Z) (answer : service)
  (this : LineClient.t) : option (LineClient.t * list (settled value)) :=
  match n with
  | O => Some (this, [])
  | S n' =>
      match cycle fuel count answer this with
      | Some x =>
          match poll n' fuel count answer (after x) with
          | Some (final, completions) => Some (final, completion x :: completions)
          | None => None
          end
      | None => None
      end
  end.

(** The number an id denotes when it is a finite numeral, 0 otherwise. *)
Definition numeral (id : string) : Q :=
  match JS.ToNumber id with
  | JS.Fin q => q
  | _ => 0%Q
  end.

(** The id is a finite numeral. *)
Definition is_numeral (id : string) : Prop :=
  exists q, JS.ToNumber id = JS.Fin q.

(** The id is a numeral of an integer of magnitude at most 2^53.  Such a
    number is a double, [ToNumber] gives it exactly, and the difference of
    two of them, rounded or not, has the sign of their exact difference. *)
Definition is_safe_integer (id : string) : Prop :=
  exists q n,
    JS.ToNumber id = JS.Fin q /\ (q == inject_Z n)%Q /\
    - 9007199254740992 <= n <= 9007199254740992.

(** The order of two contacts by the number their ids denote. *)
Definition by_numeral (a b : LineContact.t) : Prop :=
  (numeral (LineContact.id a) <= numeral (LineContact.id b))%Q.

(** The record of a group without members, for the examples. *)
Definition a_group (id : string) : Group.t :=
  Group.mk id id None None None.

(** A remote service that returns [messages] as the recent messages of
    every box, and answers every other call as [a_service] does. *)
Definition a_history_service (messages : list Message.t) : service :=
  fun q =>
    match q as q' return settled (reply q') with
    | _getRecentMessages _ _ => Fulfilled messages
    | q' => a_service (Fulfilled None) [] [] q'
    end.

(** A remote service that answers the calls for groups from the tables it
    is given, and every other call as [a_service] does. *)
Definition a_group_service (joined invited : list string)
  (groups : list string -> list Group.t) : service :=
  fun q =>
    match q as q' return settled (reply q') with
    | _getGroups groupIds => Fulfilled (groups groupIds)
    | _getGroupIdsJoined => Fulfilled joined
    | _getGroupIdsInvited => Fulfilled invited
    | q' => a_service (Fulfilled None) [] [] q'
    end.

(** Three entries of the enumeration [OpType], for the examples. *)
Definition some_OpType : enumeration :=
  [("END_OF_OPERATION", 0); ("SEND_MESSAGE", 25); ("RECEIVE_MESSAGE", 26)].

(** The id of what a lookup returned. *)
Definition entity_id (e : entity) : JS.atom :=
  match e with
  | AContact c => JS.str (LineContact.id c)
  | ARoom r => JS.str (LineRoom.id r)
  | AGroup g => LineGroup.id g
  end.

(** ** Vocabulary of the properties *)

(** The operation types of the first case of the [switch] of [longPoll]. *)
Definition message_bearing (operation : Operation.t) : bool :=
  match Operation.type operation with
  | OpType.END_OF_OPERATION
  | OpType.SEND_MESSAGE
  | OpType.RECEIVE_MESSAGE => true
  | OpType.OTHER _ => false
  end.

(** The cycle [x] of a client that holds a token has fetched a list whose
    first operation is [operation], of a message type and with its
    message. *)
Definition processes (fuel : nat) (count : Z) (answer : service)
  (this : LineClient.t) (operation : Operation.t) (x : run) : Prop :=
  _checkAuth this = true /\
  (exists rest,
      answer (_fetchOperations (LineClient.revision this) count)
      = Fulfilled (Some (operation :: rest))) /\
  message_bearing operation = true /\
  (exists raw, Operation.message operation = Some raw) /\
  cycle fuel count answer this = Some x.

(** The maxima of a sequence, taken from [m] on. *)
Fixpoint running_max (m : Z) (rs : list Z) : list Z :=
  match rs with
  | [] => []
  | r :: rs' => Z.max m r :: running_max (Z.max m r) rs'
  end.

(** [polled start rs seen final]: from the client [start], cycles have
    processed operations of revisions [rs], in this order; [seen] are the
    revisions of the session after each of them and [final] is the client
    after the last.  Between two cycles anything may have happened to the
    client but a change of its revision. *)
Inductive polled (start : LineClient.t)
  : list Z -> list Z -> LineClient.t -> Prop :=
| polled_none : polled start [] [] start
| polled_cycle (rs seen : list Z) (before this : LineClient.t)
    (fuel : nat) (count : Z) (answer : service) (operation : Operation.t)
    (x : run) :
    polled start rs seen before ->
    LineClient.revision this = LineClient.revision before ->
    processes fuel count answer this operation x ->
    polled start (rs ++ [Operation.revision operation])
           (seen ++ [LineClient.revision (after x)]) (after x).

(** The remote calls of a repair, in the order they are issued. *)
Definition repair_calls : list request :=
  [_getGroupIdsJoined; _getGroupIdsInvited; _getAllContactIds;
   _getMessageBoxCompactWrapUpList 1 50].

(** The triple [longPoll] builds from the directory of [this] for the
    message [raw]: sender and receiver looked up by id. *)
Definition resolution (this : LineClient.t) (raw : Message.t) : triple :=
  (to_ref (getContactOrRoomOrGroupById this (Message.from_ raw)),
   to_ref (getContactOrRoomOrGroupById this (Message.to raw)),
   new_LineMessage this raw).

(** [!sender || !receiver] *)
Definition unresolved (t : triple) : bool :=
  negb (truthy (fst (fst t))) || negb (truthy (snd (fst t))).

(** The cycle has printed the error [No Operation.]. *)
Definition reports_no_operation (x : run) : Prop :=
  In (console_error (Error "No Operation.")) (console x).

(** * Properties *)

(** ** Facts about the JavaScript fragment *)

Example ToNumber_examples :
  JS.ToNumber "c3" = JS.NaN /\ JS.ToNumber "" = JS.of_Z 0 /\
  JS.ToNumber " 12 " = JS.of_Z 12 /\ JS.ToNumber "0x1F" = JS.of_Z 31 /\
  JS.ToNumber "-Infinity" = JS.Infinity true /\
  JS.ToNumber "1e" = JS.NaN /\ JS.ToNumber "." = JS.NaN /\
  JS.ToNumber "[object Object]" = JS.NaN /\ JS.ToNumber "0x" = JS.NaN.
Proof. repeat split; reflexivity. Qed.

Lemma strict_eq_true (x y : JS.atom) : JS.strict_eq x y = true <-> x = y.
Proof.
  destruct x, y; simpl; split; intro H; try discriminate; try reflexivity.
  - apply String.eqb_eq in H. now subst.
  - injection H as ->. apply String.eqb_refl.
Qed.

Lemma strict_eq_false (x y : JS.atom) : JS.strict_eq x y = false <-> x <> y.
Proof.
  rewrite <- strict_eq_true. destruct (JS.strict_eq x y); split; congruence.
Qed.

(** Trimming on the right keeps a leading character that is not white
    space. *)
Lemma rtrim_head (c : ascii) (l : list ascii) :
  JS.is_ws c = false -> exists t, JS.rtrim (c :: l) = c :: t.
Proof.
  intro H. simpl. destruct (JS.rtrim l).
  - rewrite H. now exists [].
  - now eexists.
Qed.

(** A string that opens with a bracket does not denote a number. *)
Lemma ToNumber_bracket (s : string) : JS.ToNumber (String "[" s) = JS.NaN.
Proof.
  unfold JS.ToNumber.
  change (list_ascii_of_string (String "[" s))
    with ("["%char :: list_ascii_of_string s).
  change (JS.ltrim ("["%char :: list_ascii_of_string s))
    with ("["%char :: list_ascii_of_string s).
  destruct (rtrim_head "[" (list_ascii_of_string s) eq_refl) as [t ->].
  destruct t as [|x t]; reflexivity.
Qed.

(** The array of the boxes of a page never compares above an index. *)
Lemma boxes_bound_never_above (boxes : list MessageBoxWrapUp.t) (i : nat) :
  JS.lt (JS.of_nat i) (boxes_ToNumber boxes) = false.
Proof.
  unfold boxes_ToNumber. destruct boxes as [|b rest].
  - change (JS.ToNumber (JS.Array_toString (map (fun _ => "[object Object]") [])))
      with (JS.of_Z 0).
    unfold JS.of_nat, JS.of_Z, JS.lt.
    destruct (Qcompare (inject_Z (Z.of_nat i)) (inject_Z 0)) eqn:E; auto.
    exfalso. apply Qlt_alt in E. unfold Qlt in E. simpl in E. lia.
  - assert (H : exists s,
               JS.Array_toString
                 (map (fun _ : MessageBoxWrapUp.t => "[object Object]")
                      (b :: rest)) = String "[" s).
    { unfold JS.Array_toString. simpl. destruct (map _ rest); now eexists. }
    destruct H as [s ->]. rewrite ToNumber_bracket.
    unfold JS.of_nat, JS.of_Z. reflexivity.
Qed.

(** ** Membership and the computed views (C8) *)

Lemma indexOf_from_absent (array : list LineContact.t) (id : string) :
  forall i, indexOf_from i array id = -1.
Proof. induction array as [|x t IH]; intro i; simpl; auto. Qed.

(** [_containId] answers false for every id, member or not. *)
Lemma containId_false :
  (forall g id, LineGroup_containId g id = false) /\
  (forall r id, LineRoom_containId r id = false).
Proof.
  split; intros; unfold LineGroup_containId, LineRoom_containId, indexOf;
    rewrite indexOf_from_absent; reflexivity.
Qed.

(** The view [rooms] is empty and the view [groups] is a list of [false],
    one per group the client holds, whatever the members are. *)
Lemma views_of_any_contact (_client : LineClient.t) (c : LineContact.t) :
  LineContact_rooms _client c = [] /\
  LineContact_groups _client c
  = repeat false (List.length (LineClient.groups _client)).
Proof.
  unfold LineContact_rooms, LineContact_groups. split.
  - induction (LineClient.rooms _client) as [|r t IH]; simpl; auto.
    now rewrite (proj2 containId_false).
  - induction (LineClient.groups _client) as [|g t IH]; simpl; auto.
    now rewrite (proj1 containId_false), IH.
Qed.

(** C8, on the code: for the contact [u1], a member of the group [friends]
    and of the room [chat] that the client holds, [_containId] of the
    group and of the room answers false for its id, its view [rooms] is
    empty, and its view [groups] is the list of booleans [[false]] and not a
    list of groups. *)
Theorem containId_misses_a_member :
  let u1 := new_LineContact (record "u1") in
  In (LineContact.id u1) (getMemberIds friends) /\
  In (LineContact.id u1) (getContactIds chat) /\
  LineClient.groups in_a_group = [friends] /\
  LineClient.rooms in_a_group = [chat] /\
  LineGroup_containId friends (LineContact.id u1) = false /\
  LineRoom_containId chat (LineContact.id u1) = false /\
  LineContact_rooms in_a_group u1 = [] /\
  LineContact_groups in_a_group u1 = [false].
Proof.
  cbv zeta. repeat split; try reflexivity; simpl; auto.
Qed.

(** ** The gate (C5) *)

Lemma checkAuth_token (this : LineClient.t) :
  _checkAuth this = true <->
  exists token, LineClient.authToken this = Some token /\ token <> "".
Proof.
  unfold _checkAuth. destruct (LineClient.authToken this) as [t|]; split.
  - intro H. exists t. split; auto. intros ->. discriminate.
  - intros (t' & [= <-] & Hne).
    destruct (String.eqb_spec t ""); [contradiction | reflexivity].
  - discriminate.
  - intros (t' & H & _). discriminate.
Qed.

(** A call refused at the gate answers with the rejected promise and leaves
    no remote call in flight. *)
Lemma refused_issues_nothing (this : LineClient.t) :
  result (only this please_login) = reject (Error "Please Login first") /\
  issued (only this please_login) = [] /\
  client (only this please_login) = this.
Proof. repeat split. Qed.

(** Without a token every method that returns a promise is refused at the
    gate. *)
Lemma gate_closed (this : LineClient.t) :
  _checkAuth this = false ->
  let refused := only this please_login in
  getLastOpRevision this = refused /\
  getProfile this = refused /\
  (forall ids joined, addGroupsWithIds this ids joined = refused) /\
  refreshContacts this = refused /\
  refreshGroups this = refused /\
  (forall fuel, refreshActiveRooms fuel this = Some refused) /\
  (forall name ids, createGroupWithIds this name ids = refused) /\
  (forall name cs, createGroupWithContacts this name cs = refused) /\
  (forall g cs, inviteIntoGroup this g cs = refused) /\
  (forall g, acceptGroupInvitation this g = refused) /\
  (forall g, leaveGroup this g = refused) /\
  (forall ids, createRoomWithIds this ids = refused) /\
  (forall cs, createRoomWithContacts this cs = refused) /\
  (forall r cs, inviteIntoRoom this r cs = refused) /\
  (forall r, leaveRoom this r = refused) /\
  (forall m seq, sendMessage this m seq = refused) /\
  (forall a b seq, sendChatChecked this a b seq = refused) /\
  (forall id, getMessageBox this id = refused) /\
  (forall box n, getRecentMessages this box n = refused).
Proof.
  intro H. cbv zeta.
  unfold getLastOpRevision, getProfile, addGroupsWithIds, refreshContacts,
    refreshGroups, refreshActiveRooms, createGroupWithIds,
    createGroupWithContacts, inviteIntoGroup, acceptGroupInvitation,
    leaveGroup, createRoomWithIds, createRoomWithContacts, inviteIntoRoom,
    leaveRoom, sendMessage, sendChatChecked, getMessageBox, getRecentMessages.
  rewrite H. repeat split.
Qed.

Lemma refreshActiveRooms_loop_once (fuel : nat) (start : Z)
  (pages : list promise) :
  refreshActiveRooms_loop (S fuel) start 50 pages
  = Some (pages ++ [Await (_getMessageBoxCompactWrapUpList start 50) page_then]).
Proof. reflexivity. Qed.

(** With a token the gate lets every method through to its remote call. *)
Lemma gate_open (this : LineClient.t) :
  _checkAuth this = true ->
  issued (getLastOpRevision this) = [_getLastOpRevision] /\
  issued (getProfile this) = [_getProfile] /\
  (forall ids joined,
      issued (addGroupsWithIds this ids joined) = [_getGroups ids]) /\
  issued (refreshContacts this) = [_getAllContactIds] /\
  issued (refreshGroups this) = [_getGroupIdsJoined; _getGroupIdsInvited] /\
  (forall fuel,
      option_map issued (refreshActiveRooms (S fuel) this)
      = Some [_getMessageBoxCompactWrapUpList 1 50]) /\
  (forall name ids,
      issued (createGroupWithIds this name ids) = [_createGroup name ids]) /\
  (forall g cs,
      issued (inviteIntoGroup this g cs)
      = [_inviteIntoGroup (LineGroup.id g) (map LineContact.id cs)]) /\
  (forall g, issued (leaveGroup this g) = [_leaveGroup (LineGroup.id g)]) /\
  (forall ids, issued (createRoomWithIds this ids) = [_createRoom ids]) /\
  (forall r, issued (leaveRoom this r) = [_leaveRoom (LineRoom.id r)]) /\
  (forall m seq, issued (sendMessage this m seq) = [_sendMessage m seq]) /\
  (forall box n,
      issued (getRecentMessages this box n)
      = [_getRecentMessages (MessageBox.id box) n]) /\
  (forall fuel count,
      exists k,
        longPoll fuel count this
        = (this, [], [],
           Yield_remote (_fetchOperations (LineClient.revision this) count) k)).
Proof.
  intro H.
  unfold getLastOpRevision, getProfile, addGroupsWithIds, refreshContacts,
    refreshGroups, refreshActiveRooms, createGroupWithIds, inviteIntoGroup,
    leaveGroup, createRoomWithIds, leaveRoom, sendMessage, getRecentMessages,
    longPoll.
  rewrite H. repeat split. intros. now eexists.
Qed.

(** C5, on the code: the client [signed_out] holds no token.  A cycle of
    [longPoll] on it makes no remote call, and ends at once by returning
    [undefined]: no error reaches the driver.  The other gated methods, on
    the same client, answer with the promise rejected with
    [Please Login first]. *)
Theorem longPoll_without_token_raises_nothing :
  LineClient.authToken signed_out = None /\
  (forall fuel count answer,
      cycle fuel count answer signed_out
      = Some (mk_run signed_out [] [] [] [] (Fulfilled VUndefined))) /\
  refreshContacts signed_out
  = (signed_out, [], [], Settled (Rejected (Error "Please Login first"))) /\
  leaveRoom signed_out chat
  = (signed_out, [], [], Settled (Rejected (Error "Please Login first"))).
Proof. repeat split. Qed.

(** ** Leaving a group or a room (C10) *)

Lemma other_group_spec (group gp : LineGroup.t) :
  other_group group gp = true <-> LineGroup.id gp <> LineGroup.id group.
Proof.
  unfold other_group. rewrite negb_true_iff. apply strict_eq_false.
Qed.

Lemma other_room_spec (room rm : LineRoom.t) :
  other_room room rm = true <-> LineRoom.id rm <> LineRoom.id room.
Proof.
  unfold other_room. rewrite negb_true_iff. apply String.eqb_neq.
Qed.

(** C10: with a token held, [leaveGroup(group)] issues the remote leave call
    and nothing else, and changes nothing before the reply.  When the reply
    arrives, with the client as it is then ([later]): if the call succeeded
    the promise is fulfilled with [true], the group store is the store of
    that moment without the entries whose id is the id of [group], in the
    same order (an entry is in the store after exactly when it was in the
    store and its id differs), and every other field of the client is as it
    was; if the call failed the promise is fulfilled with [false], not
    rejected, and the client is left as it was.  The same holds of
    [leaveRoom(room)] and the room store. *)
Theorem leave_resolves_with_the_outcome_of_the_call
  (this : LineClient.t) (group : LineGroup.t) (room : LineRoom.t) :
  _checkAuth this = true ->
  (leaveGroup this group
   = (this, [], [], result (leaveGroup this group)) /\
   waiting (result (leaveGroup this group)) = [_leaveGroup (LineGroup.id group)] /\
   forall (answer : service) (later : LineClient.t),
     let x := settle answer (result (leaveGroup this group)) later in
     answered x = [_leaveGroup (LineGroup.id group)] /\
     left_over x = [] /\
     match answer (_leaveGroup (LineGroup.id group)) with
     | Fulfilled _ =>
         settled_with x = Fulfilled (VBoolean true) /\
         LineClient.groups (client_after x)
         = filter (other_group group) (LineClient.groups later) /\
         (forall gp,
             In gp (LineClient.groups (client_after x)) <->
             In gp (LineClient.groups later) /\
             LineGroup.id gp <> LineGroup.id group) /\
         LineClient.rooms (client_after x) = LineClient.rooms later /\
         LineClient.contacts (client_after x) = LineClient.contacts later /\
         LineClient.revision (client_after x) = LineClient.revision later /\
         LineClient.authToken (client_after x) = LineClient.authToken later /\
         LineClient.certificate (client_after x)
         = LineClient.certificate later /\
         LineClient.profile (client_after x) = LineClient.profile later /\
         LineClient.id (client_after x) = LineClient.id later /\
         LineClient.password (client_after x) = LineClient.password later
     | Rejected _ =>
         settled_with x = Fulfilled (VBoolean false) /\
         client_after x = later
     end) /\
  (leaveRoom this room
   = (this, [], [], result (leaveRoom this room)) /\
   waiting (result (leaveRoom this room)) = [_leaveRoom (LineRoom.id room)] /\
   forall (answer : service) (later : LineClient.t),
     let x := settle answer (result (leaveRoom this room)) later in
     answered x = [_leaveRoom (LineRoom.id room)] /\
     left_over x = [] /\
     match answer (_leaveRoom (LineRoom.id room)) with
     | Fulfilled _ =>
         settled_with x = Fulfilled (VBoolean true) /\
         LineClient.rooms (client_after x)
         = filter (other_room room) (LineClient.rooms later) /\
         (forall rm,
             In rm (LineClient.rooms (client_after x)) <->
             In rm (LineClient.rooms later) /\
             LineRoom.id rm <> LineRoom.id room) /\
         LineClient.groups (client_after x) = LineClient.groups later /\
         LineClient.contacts (client_after x) = LineClient.contacts later /\
         LineClient.revision (client_after x) = LineClient.revision later /\
         LineClient.authToken (client_after x) = LineClient.authToken later /\
         LineClient.certificate (client_after x)
         = LineClient.certificate later /\
         LineClient.profile (client_after x) = LineClient.profile later /\
         LineClient.id (client_after x) = LineClient.id later /\
         LineClient.password (client_after x) = LineClient.password later
     | Rejected _ =>
         settled_with x = Fulfilled (VBoolean false) /\
         client_after x = later
     end).
Proof.
  intro H. unfold leaveGroup, leaveRoom. rewrite H.
  refine (conj (conj eq_refl (conj eq_refl _)) (conj eq_refl (conj eq_refl _))).
  - intros answer later. cbv zeta. cbn [result snd only settle].
    destruct (answer (_leaveGroup (LineGroup.id group)));
      cbn [only settle answered left_over settled_with client_after app];
      [|now repeat split].
    unfold LineClient.set_groups.
    cbn [LineClient.groups LineClient.rooms LineClient.contacts
         LineClient.revision LineClient.authToken LineClient.certificate
         LineClient.profile LineClient.id LineClient.password].
    refine (conj eq_refl (conj eq_refl (conj eq_refl (conj eq_refl (conj _ _))))).
    + intro gp. unfold resolve. cbn [settle client_after LineClient.groups].
      rewrite filter_In, other_group_spec. reflexivity.
    + repeat split.
  - intros answer later. cbv zeta. cbn [result snd only settle].
    destruct (answer (_leaveRoom (LineRoom.id room)));
      cbn [only settle answered left_over settled_with client_after app];
      [|now repeat split].
    unfold LineClient.set_rooms.
    cbn [LineClient.groups LineClient.rooms LineClient.contacts
         LineClient.revision LineClient.authToken LineClient.certificate
         LineClient.profile LineClient.id LineClient.password].
    refine (conj eq_refl (conj eq_refl (conj eq_refl (conj eq_refl (conj _ _))))).
    + intro rm. unfold resolve. cbn [settle client_after LineClient.rooms].
      rewrite filter_In, other_room_spec. reflexivity.
    + repeat split.
Qed.

(** ** The poll cycle *)

(** The block that looks for the sender among the members of the receiver
    never runs: the sender stays what the lookup by id gave. *)
Lemma fallback_sender_keeps (sender receiver : ref) (rawSender : JS.atom) :
  fallback_sender sender receiver rawSender = (sender, None).
Proof.
  unfold fallback_sender, string_strict_eq_LineGroup.
  now rewrite andb_false_r.
Qed.

(** The repair leaves the client as it found it: it only puts four remote
    calls in flight, in this order. *)
Lemma repair_starts_four_calls (fuel : nat) (this : LineClient.t) :
  _checkAuth this = true ->
  exists promises,
    repair (S fuel) this = Some (this, promises, []) /\
    flat_map waiting promises
    = repair_calls.
Proof.
  intro H. unfold repair.
  assert (H1 : client (refreshGroups this) = this).
  { unfold refreshGroups. now rewrite H. }
  rewrite H1.
  assert (H2 : client (refreshContacts this) = this).
  { unfold refreshContacts. now rewrite H. }
  rewrite H2.
  unfold refreshGroups, refreshContacts, refreshActiveRooms. rewrite H.
  rewrite refreshActiveRooms_loop_once. eexists. split; reflexivity.
Qed.

(** What [longPoll] does with an operation that carries its message. *)
Lemma longPoll_message_yields (fuel : nat) (operation : Operation.t)
  (raw : Message.t) (this : LineClient.t) :
  _checkAuth this = true ->
  exists promises,
    longPoll_message (S fuel) operation raw this
    = Some (this, promises, [],
            Yield_resolved (resolution this raw)
              (longPoll_advance operation
                 (fst (fst (resolution this raw)))
                 (snd (fst (resolution this raw)))
                 (snd (resolution this raw)))) /\
    flat_map waiting promises
    = if unresolved (resolution this raw) then repair_calls else [].
Proof.
  intro H. unfold longPoll_message. rewrite fallback_sender_keeps.
  unfold unresolved, resolution. cbn [fst snd].
  destruct (negb (truthy (to_ref (getContactOrRoomOrGroupById this
                                    (Message.from_ raw))))
            || negb (truthy (to_ref (getContactOrRoomOrGroupById this
                                       (Message.to raw))))).
  - destruct (repair_starts_four_calls fuel this H) as (ps & -> & Hps).
    exists ps. split; [reflexivity | exact Hps].
  - exists []. split; reflexivity.
Qed.

(** A cycle that fetches a list headed by an operation of a message type
    with its message: it emits the triple, then advances the revision and
    returns. *)
Lemma cycle_of_a_message (fuel : nat) (count : Z) (answer : service)
  (this : LineClient.t) (operation : Operation.t) (rest : list Operation.t)
  (raw : Message.t) :
  _checkAuth this = true ->
  answer (_fetchOperations (LineClient.revision this) count)
  = Fulfilled (Some (operation :: rest)) ->
  message_bearing operation = true ->
  Operation.message operation = Some raw ->
  exists promises,
    let revision :=
      Z.max (Operation.revision operation) (LineClient.revision this) in
    cycle (S fuel) count answer this
    = Some (mk_run (LineClient.set_revision revision this) promises []
              [_fetchOperations (LineClient.revision this) count]
              [resolution this raw]
              (Fulfilled (VCycle (fst (fst (resolution this raw)))
                                 (snd (fst (resolution this raw)))
                                 (snd (resolution this raw)) revision))) /\
    flat_map waiting promises
    = if unresolved (resolution this raw) then repair_calls else [].
Proof.
  intros H Hf Hb Hm.
  destruct (longPoll_message_yields fuel operation raw this H)
    as (ps & Hy & Hps).
  exists ps. cbv zeta. split; [|exact Hps]. unfold cycle, longPoll. rewrite H.
  cbn [drive]. rewrite Hf. cbn [longPoll_operations].
  unfold message_bearing in Hb.
  destruct (Operation.type operation) eqn:Ht; try discriminate;
    rewrite Hm, Hy; cbn; rewrite !app_nil_r; reflexivity.
Qed.

(** *** Fuel: one round of the page loop is all a cycle can need *)

Lemma refreshActiveRooms_more_fuel (fuel fuel' : nat) (this : LineClient.t)
  (o : outcome) :
  refreshActiveRooms fuel this = Some o ->
  refreshActiveRooms (S fuel') this = Some o.
Proof.
  unfold refreshActiveRooms. destruct (_checkAuth this); auto.
  destruct fuel as [|fuel]; [discriminate|].
  now rewrite !refreshActiveRooms_loop_once.
Qed.

Lemma repair_more_fuel (fuel fuel' : nat) (this : LineClient.t)
  (r : LineClient.t * list promise * list logentry) :
  repair fuel this = Some r -> repair (S fuel') this = Some r.
Proof.
  unfold repair.
  destruct (refreshActiveRooms fuel _) as [o|] eqn:E; [|discriminate].
  now rewrite (refreshActiveRooms_more_fuel fuel fuel' _ o E).
Qed.

Lemma longPoll_operations_more_fuel (fuel fuel' : nat)
  (r : resume (option (list Operation.t))) (this : LineClient.t) (s : stop) :
  longPoll_operations fuel r this = Some s ->
  longPoll_operations (S fuel') r this = Some s.
Proof.
  unfold longPoll_operations.
  destruct r as [[[|operation rest]|]|e]; auto.
  assert (Hm : forall raw,
             longPoll_message fuel operation raw this = Some s ->
             longPoll_message (S fuel') operation raw this = Some s).
  { intro raw. unfold longPoll_message.
    destruct (fallback_sender _ _ _) as [sender [err|]]; auto.
    destruct (negb (truthy sender) || _); auto.
    destruct (repair fuel this) as [x|] eqn:E; [|discriminate].
    now rewrite (repair_more_fuel fuel fuel' this x E). }
  destruct (Operation.type operation); auto;
    destruct (Operation.message operation); auto.
Qed.

Lemma cycle_more_fuel (fuel fuel' : nat) (count : Z) (answer : service)
  (this : LineClient.t) (x : run) :
  cycle fuel count answer this = Some x ->
  cycle (S fuel') count answer this = Some x.
Proof.
  unfold cycle, longPoll. destruct (_checkAuth this); auto.
  cbn [drive].
  destruct (longPoll_operations fuel _ this) as [s|] eqn:E; [|discriminate].
  now rewrite (longPoll_operations_more_fuel fuel fuel' _ this s E).
Qed.

(** *** The revision (C1) *)

Lemma running_max_snoc (rs : list Z) (r : Z) :
  forall m,
    running_max m (rs ++ [r])
    = running_max m rs ++ [Z.max (fold_left Z.max rs m) r].
Proof.
  induction rs as [|a rs IH]; intro m; simpl; auto.
  now rewrite IH.
Qed.

Lemma running_max_sorted (rs : list Z) :
  forall m, Sorted Z.le (m :: running_max m rs).
Proof.
  induction rs as [|a rs IH]; intro m; simpl.
  - repeat constructor.
  - constructor; [apply IH | constructor; lia].
Qed.

(** The revision a processing cycle leaves. *)
Lemma processes_advances (fuel : nat) (count : Z) (answer : service)
  (this : LineClient.t) (operation : Operation.t) (x : run) :
  processes fuel count answer this operation x ->
  LineClient.revision (after x)
  = Z.max (LineClient.revision this) (Operation.revision operation).
Proof.
  intros (H & (rest & Hf) & Hb & (raw & Hm) & Hc).
  apply (cycle_more_fuel fuel 0) in Hc.
  destruct (cycle_of_a_message 0 count answer this operation rest raw
              H Hf Hb Hm) as (ps & Hx & _).
  cbv zeta in Hx. rewrite Hx in Hc. injection Hc as <-.
  simpl. apply Z.max_comm.
Qed.

(** C1: a poll cycle that processes an operation of a message type, with
    its message, of revision [r] ends, and leaves the session revision at
    the maximum of the revision before the cycle and [r].  Hence, over any
    sequence of processed operations of revisions [rs], the revisions seen
    after each cycle are the running maxima of the starting revision and
    [rs], the last one is the maximum of them all, and the sequence of
    revisions never decreases. *)
Theorem revision_is_the_running_maximum :
  (forall (fuel : nat) (count : Z) (answer : service) (this : LineClient.t)
          (operation : Operation.t) (rest : list Operation.t)
          (raw : Message.t),
      _checkAuth this = true ->
      answer (_fetchOperations (LineClient.revision this) count)
      = Fulfilled (Some (operation :: rest)) ->
      message_bearing operation = true ->
      Operation.message operation = Some raw ->
      exists x,
        cycle (S fuel) count answer this = Some x /\
        LineClient.revision (after x)
        = Z.max (LineClient.revision this) (Operation.revision operation)) /\
  (forall (start : LineClient.t) (rs seen : list Z) (final : LineClient.t),
      polled start rs seen final ->
      seen = running_max (LineClient.revision start) rs /\
      LineClient.revision final
      = fold_left Z.max rs (LineClient.revision start) /\
      Sorted Z.le (LineClient.revision start :: seen)).
Proof.
  split.
  - intros fuel count answer this operation rest raw H Hf Hb Hm.
    destruct (cycle_of_a_message fuel count answer this operation rest raw
                H Hf Hb Hm) as (ps & Hx & _).
    eexists. split; [exact Hx|]. simpl. apply Z.max_comm.
  - intros start rs seen final Hp.
    assert (Hmain : seen = running_max (LineClient.revision start) rs /\
                    LineClient.revision final
                    = fold_left Z.max rs (LineClient.revision start)).
    { induction Hp as [|rs seen before this fuel count answer operation x
                         Hp [IHs IHr] Hrev Hpr].
      - split; reflexivity.
      - rewrite (processes_advances _ _ _ _ _ _ Hpr), Hrev, IHr.
        rewrite running_max_snoc, fold_left_app, IHs. split; reflexivity. }
    destruct Hmain as [Hs Hr]. repeat split; auto.
    rewrite Hs. apply running_max_sorted.
Qed.

(** Splits a statement by cases on the answer of the fetch and closes the
    cases an equation between different constructors rules out. *)
Ltac settle_cases :=
  repeat match goal with
         | H : Fulfilled _ = Rejected _ |- _ => discriminate H
         | H : Rejected _ = Fulfilled _ |- _ => discriminate H
         | H : _ :: _ = [] |- _ => discriminate H
         | H : Rejected _ = Rejected _ |- _ => injection H as H; subst
         | |- _ /\ _ => split
         | |- forall _, _ => intro
         | |- exists v, _ = Fulfilled v => eexists; reflexivity
         end;
  try reflexivity; try congruence.

(** *** Errors during a cycle (C9) *)

(** C9: a cycle of a client that holds a token always ends.  If the fetch
    fails with a [TalkException] of code 9, the generator throws the error
    [user logged in on another machine] to its driver.  If the fetch fails
    with any other error, that error is printed and caught: the generator
    returns [undefined], nothing is emitted and the client, its revision
    included, is left as it was.  If the fetch succeeds, no error leaves the
    generator whatever happens in the cycle, and a cycle that emits nothing
    leaves the client, its revision included, as it was. *)
Theorem session_conflict_is_fatal (fuel : nat) (count : Z) (answer : service)
  (this : LineClient.t) :
  _checkAuth this = true ->
  exists x,
    cycle (S fuel) count answer this = Some x /\
    fetches x = [_fetchOperations (LineClient.revision this) count] /\
    (forall reason,
        answer (_fetchOperations (LineClient.revision this) count)
        = Rejected (TalkException 9 reason) ->
        completion x = Rejected (Error "user logged in on another machine") /\
        after x = this /\ emitted x = []) /\
    (forall e,
        answer (_fetchOperations (LineClient.revision this) count)
        = Rejected e ->
        (forall reason, e <> TalkException 9 reason) ->
        completion x = Fulfilled VUndefined /\
        console x = [console_error e] /\
        after x = this /\ emitted x = []) /\
    (forall fetched,
        answer (_fetchOperations (LineClient.revision this) count)
        = Fulfilled fetched ->
        (exists v, completion x = Fulfilled v) /\
        (emitted x = [] -> after x = this)).
Proof.
  intro H. unfold cycle, longPoll. rewrite H. cbn [drive].
  destruct (answer (_fetchOperations (LineClient.revision this) count))
    as [fetched|e] eqn:Ha.
  - cbn [longPoll_operations].
    destruct fetched as [[|operation rest]|].
    + eexists. split; [reflexivity|]. cbn. settle_cases.
    + destruct (Operation.type operation) eqn:Ht;
        try (destruct (Operation.message operation) as [raw|] eqn:Hm;
             [ destruct (longPoll_message_yields fuel operation raw this H)
                 as (ps & -> & _) | ]);
        (eexists; split; [reflexivity|]; cbn; settle_cases).
    + eexists. split; [reflexivity|]. cbn. settle_cases.
  - cbn [longPoll_operations]. unfold longPoll_catch.
    destruct e as [code reason|m|m].
    + destruct (code =? 9) eqn:Hc.
      * apply Z.eqb_eq in Hc. subst code.
        eexists. split; [reflexivity|]. cbn. settle_cases.
      * apply Z.eqb_neq in Hc.
        eexists. split; [reflexivity|]. cbn. settle_cases.
    + eexists. split; [reflexivity|]. cbn. settle_cases.
    + eexists. split; [reflexivity|]. cbn. settle_cases.
Qed.

(** *** A fetch that brings no operation *)

(** The two ways a fetch brings no operation, for a client that holds a
    token: when it yields no list ([null] or [undefined]) the cycle raises
    the error [No Operation.], prints it, catches it and returns
    [undefined]; when it yields the empty list, which the guard
    [!operations] lets through, the cycle returns [undefined] and prints
    nothing.  In both cases only the fetch is issued, nothing is emitted
    and the client, its revision included, is left as it was. *)
Theorem fetch_without_operations (fuel : nat) (count : Z) (answer : service)
  (this : LineClient.t) :
  _checkAuth this = true ->
  (answer (_fetchOperations (LineClient.revision this) count)
   = Fulfilled None ->
   cycle fuel count answer this
   = Some (mk_run this [] [console_error (Error "No Operation.")]
             [_fetchOperations (LineClient.revision this) count] []
             (Fulfilled VUndefined))) /\
  (answer (_fetchOperations (LineClient.revision this) count)
   = Fulfilled (Some []) ->
   cycle fuel count answer this
   = Some (mk_run this [] []
             [_fetchOperations (LineClient.revision this) count] []
             (Fulfilled VUndefined))).
Proof.
  intro H. unfold cycle, longPoll. rewrite H. cbn [drive].
  split; intros ->; reflexivity.
Qed.

(** *** The sender that is a member of the receiver (C2) *)

(** Whatever the directory holds, the sender [longPoll] emits is the one
    the lookup by id gives when the operations arrive: the members of a
    receiving group are never consulted. *)
Lemma emitted_sender_is_looked_up (fuel : nat) (count : Z) (answer : service)
  (this : LineClient.t) (operation : Operation.t) (x : run) :
  processes fuel count answer this operation x ->
  exists raw,
    Operation.message operation = Some raw /\
    emitted x = [resolution this raw].
Proof.
  intros (H & (rest & Hf) & Hb & (raw & Hm) & Hc).
  apply (cycle_more_fuel fuel 0) in Hc.
  destruct (cycle_of_a_message 0 count answer this operation rest raw
              H Hf Hb Hm) as (ps & Hx & _).
  cbv zeta in Hx. rewrite Hx in Hc. injection Hc as <-.
  exists raw. split; auto.
Qed.

(** C2, on the code: the client [in_a_group] holds the group [g1], whose
    member [u1] it does not hold as a contact.  For a [RECEIVE_MESSAGE]
    operation from [u1] to [g1] the cycle emits a triple whose receiver is
    the group and whose sender is [undefined], not the member. *)
Theorem a_member_of_the_receiver_is_not_found :
  getContactOrRoomOrGroupById in_a_group (JS.str "u1") = None /\
  getContactOrRoomOrGroupById in_a_group (JS.str "g1")
  = Some (AGroup friends) /\
  In (new_LineContact (record "u1")) (LineGroup.members friends) /\
  exists x,
    cycle 1 50
          (a_service (Fulfilled (Some [received 105 "u1" "g1"])) [] [])
          in_a_group
    = Some x /\
    emitted x
    = [(Undefined, Object (AGroup friends),
        new_LineMessage in_a_group (text_message "u1" "g1"))] /\
    completion x
    = Fulfilled (VCycle Undefined (Object (AGroup friends))
                   (new_LineMessage in_a_group (text_message "u1" "g1"))
                   105).
Proof.
  repeat split; try reflexivity; [simpl; auto|].
  eexists. repeat split; reflexivity.
Qed.

(** *** The repair (C7) *)

(** A cycle resolves sender and receiver against the directory it finds;
    when one of them is missing it issues the calls of one repair, once,
    before it emits the triple. *)
Lemma repair_is_issued_once (fuel : nat) (count : Z) (answer : service)
  (this : LineClient.t) (operation : Operation.t) (x : run) :
  processes fuel count answer this operation x ->
  exists raw,
    Operation.message operation = Some raw /\
    emitted x = [resolution this raw] /\
    flat_map waiting (in_flight x)
    = (if unresolved (resolution this raw) then repair_calls else []) /\
    LineClient.contacts (after x) = LineClient.contacts this /\
    LineClient.groups (after x) = LineClient.groups this /\
    LineClient.rooms (after x) = LineClient.rooms this.
Proof.
  intros (H & (rest & Hf) & Hb & (raw & Hm) & Hc).
  apply (cycle_more_fuel fuel 0) in Hc.
  destruct (cycle_of_a_message 0 count answer this operation rest raw
              H Hf Hb Hm) as (ps & Hx & Hps).
  cbv zeta in Hx. rewrite Hx in Hc. injection Hc as <-.
  exists raw. repeat split; auto.
Qed.

(** C7, on the code: the client [signed_in] holds no contact and the remote
    service holds the contact [u1].  For an operation from [u1] to [u1] the
    cycle issues the four calls of the repair and, with none of them
    answered yet, resolves both ids a second time against the directory as
    it was: the triple it emits has [undefined] for sender and receiver,
    and the client it leaves holds no contact.  Once the calls of the repair
    are answered, the directory resolves [u1]. *)
Theorem repair_is_not_awaited :
  exists x,
    cycle 1 50
          (a_service (Fulfilled (Some [received 105 "u1" "u1"]))
                     [record "u1"] [])
          signed_in
    = Some x /\
    flat_map waiting (in_flight x) = repair_calls /\
    emitted x
    = [(Undefined, Undefined,
        new_LineMessage signed_in (text_message "u1" "u1"))] /\
    LineClient.contacts (after x) = [] /\
    exists repaired printed asked,
      settle_all 10
                 (a_service (Fulfilled (Some [received 105 "u1" "u1"]))
                            [record "u1"] [])
                 (in_flight x) (after x)
      = Some (repaired, printed, asked) /\
      getContactOrRoomOrGroupById repaired (JS.str "u1")
      = Some (AContact (new_LineContact (record "u1"))).
Proof.
  eexists. split; [reflexivity|]. repeat split.
  do 3 eexists. split; reflexivity.
Qed.

(** ** Refreshing the contacts (C4) *)

Lemma insert_permutation {A : Type} (comparefn : A -> A -> JS.number)
  (x : A) (l : list A) :
  Permutation (JS.insert comparefn x l) (x :: l).
Proof.
  induction l as [|y t IH]; simpl; auto.
  destruct (JS.sign (comparefn x y)); auto.
  rewrite IH. apply perm_swap.
Qed.

(** The sort returns the elements it was given. *)
Lemma sort_permutation {A : Type} (comparefn : A -> A -> JS.number)
  (l : list A) :
  Permutation (JS.sort comparefn l) l.
Proof.
  induction l as [|x t IH]; simpl; auto.
  rewrite insert_permutation. now constructor.
Qed.

(** When no element has to follow another, the sort moves nothing. *)
Lemma sort_keeps_order {A : Type} (comparefn : A -> A -> JS.number)
  (l : list A) :
  (forall a b, In a l -> In b l -> JS.sign (comparefn a b) <> Gt) ->
  JS.sort comparefn l = l.
Proof.
  induction l as [|x t IH]; intro H; simpl; auto.
  rewrite IH by (intros; apply H; now right).
  destruct t as [|y t']; simpl; auto.
  specialize (H x y (or_introl eq_refl) (or_intror (or_introl eq_refl))).
  destruct (JS.sign (comparefn x y)); congruence.
Qed.

(** Two ids that are not numerals compare as equal. *)
Lemma contact_comparefn_NaN (a b : LineContact.t) :
  JS.ToNumber (LineContact.id a) = JS.NaN ->
  JS.sign (contact_comparefn a b) = Eq.
Proof. unfold contact_comparefn. now intros ->. Qed.

(** What [refreshContacts] stores when both calls succeed: the contacts
    built from the records, in place of what the store held; they are the
    records' contacts up to their order, and in the order of the records
    when no id is a numeral. *)
Lemma refreshContacts_stores (this later : LineClient.t) (answer : service)
  (ids : list string) (records : list Contact.t) :
  _checkAuth this = true ->
  answer _getAllContactIds = Fulfilled ids ->
  answer (_getContacts ids) = Fulfilled records ->
  let x := settle answer (result (refreshContacts this)) later in
  client_after x
  = LineClient.set_contacts
      (JS.sort contact_comparefn (map new_LineContact records)) later /\
  Permutation (LineClient.contacts (client_after x))
              (map new_LineContact records) /\
  ((forall r, In r records -> JS.ToNumber (Contact.mid r) = JS.NaN) ->
   LineClient.contacts (client_after x) = map new_LineContact records).
Proof.
  intros H Hi Hc. cbv zeta. unfold refreshContacts. rewrite H.
  cbn. rewrite Hi. cbn. rewrite Hc. cbn.
  split; [reflexivity|]. split; [apply sort_permutation|].
  intro Hn. apply sort_keeps_order. intros a b Ha _.
  rewrite contact_comparefn_NaN; [discriminate|].
  apply in_map_iff in Ha. destruct Ha as (r & <- & Hr). now apply Hn.
Qed.

(** C4, on the code: the client [signed_in] holds a token and the remote
    service returns the records of ids [c3], [c1], [c2], in this order.
    After [refreshContacts] the store holds the three contacts in the order
    [c3], [c1], [c2] of the remote, not in ascending order of id. *)
Theorem refreshContacts_does_not_sort_ids :
  answered
    (settle (a_service (Fulfilled None)
                       [record "c3"; record "c1"; record "c2"] [])
            (result (refreshContacts signed_in)) signed_in)
  = [_getAllContactIds; _getContacts ["c3"; "c1"; "c2"]] /\
  map LineContact.id
      (LineClient.contacts
         (client_after
            (settle (a_service (Fulfilled None)
                               [record "c3"; record "c1"; record "c2"] [])
                    (result (refreshContacts signed_in)) signed_in)))
  = ["c3"; "c1"; "c2"].
Proof. split; reflexivity. Qed.

(** ** Refreshing the active rooms (C6) *)

Lemma scan_boxes_starts_nothing (boxes : list MessageBoxWrapUp.t) :
  scan_boxes 0 (boxes_ToNumber boxes) boxes [] = ([], None).
Proof.
  destruct boxes as [|b rest]; cbn [scan_boxes];
    now rewrite (boxes_bound_never_above _ 0).
Qed.

(** Whatever a page holds, its callbacks start no call and leave the client
    as it is. *)
Lemma page_then_starts_nothing (r : settled Channel.t) (this : LineClient.t) :
  exists printed v,
    page_then r this = (this, [], printed, Settled v).
Proof.
  unfold page_then. destruct r as [channel|e].
  - destruct (Channel.messageBoxWrapUpList channel) as [boxes|].
    + rewrite scan_boxes_starts_nothing. now do 2 eexists.
    + now do 2 eexists.
  - now do 2 eexists.
Qed.

(** With a token, [refreshActiveRooms] ends after one round of its loop:
    it asks for the page that starts at 1, and answers with the rooms the
    client holds. *)
Lemma refreshActiveRooms_one_page (fuel : nat) (this : LineClient.t) :
  _checkAuth this = true ->
  refreshActiveRooms (S fuel) this
  = Some (this,
          [Await (_getMessageBoxCompactWrapUpList 1 50) page_then], [],
          resolve (VRooms (LineClient.rooms this))).
Proof.
  intro H. unfold refreshActiveRooms. now rewrite H.
Qed.

(** Whatever the remote service answers, following that page to its end
    asks nothing more and leaves the client, its rooms included, as it
    was. *)
Lemma refreshActiveRooms_settles (fuel : nat) (answer : service)
  (later : LineClient.t) :
  exists printed,
    settle_all (S fuel) answer
               [Await (_getMessageBoxCompactWrapUpList 1 50) page_then] later
    = Some (later, printed, [_getMessageBoxCompactWrapUpList 1 50]).
Proof.
  cbn [settle_all settle].
  destruct (page_then_starts_nothing
              (answer (_getMessageBoxCompactWrapUpList 1 50)) later)
    as (printed & v & ->).
  cbn. destruct fuel; eexists; reflexivity.
Qed.

(** C6, on the code: the remote service holds 120 message boxes, all of
    rooms.  [refreshActiveRooms] on the client [signed_in] issues one call,
    for the page of 50 boxes that starts at 1; following it to its end
    issues no other call, neither for a second page nor for a room, and the
    room store is as empty as before. *)
Theorem refreshActiveRooms_asks_one_page (fuel : nat) :
  List.length (map room_box (repeat "r1" 120%nat)) = 120%nat /\
  exists o,
    refreshActiveRooms (S fuel) signed_in = Some o /\
    issued o = [_getMessageBoxCompactWrapUpList 1 50] /\
    exists printed,
      settle_all 10 (a_service (Fulfilled None) []
                               (map room_box (repeat "r1" 120%nat)))
                 (started o) (client o)
      = Some (signed_in, printed, [_getMessageBoxCompactWrapUpList 1 50]) /\
      LineClient.rooms signed_in = [].
Proof.
  split; [reflexivity|].
  eexists. split; [reflexivity|]. split; [reflexivity|].
  eexists. split; reflexivity.
Qed.
(** ** The calls of a repair, once answered *)

(** A promise that, followed to its settlement from any client and under
    any answers, starts nothing and leaves the revision alone. *)
Definition keeps_revision (p : promise) : Prop :=
  forall (answer : service) (later : LineClient.t),
    LineClient.revision (client_after (settle answer p later))
    = LineClient.revision later /\
    left_over (settle answer p later) = [].

Lemma addGroupsWithIds_keeps_revision (this : LineClient.t)
  (ids : list string) (joined : bool) :
  keeps_revision (result (addGroupsWithIds this ids joined)).
Proof.
  intros answer later. unfold addGroupsWithIds.
  destruct (_checkAuth this); cbn; [|now split].
  destruct (answer (_getGroups ids)); cbn; now split.
Qed.

Lemma refreshGroups_chain_keeps_revision (q : request) (joined : bool)
  (to_ids : settled (reply q) -> settled (list string)) :
  keeps_revision
    (Await q (fun r this =>
       match to_ids r with
       | Fulfilled ids => addGroupsWithIds this ids joined
       | Rejected e => only this (reject e)
       end)).
Proof.
  intros answer later. cbn [settle].
  destruct (to_ids (answer q)) as [ids|e]; [|cbn; now split].
  destruct (addGroupsWithIds_keeps_revision later ids joined answer later)
    as [Hr Hl].
  unfold addGroupsWithIds in *.
  destruct (_checkAuth later); cbn in *; now split.
Qed.

Lemma refreshContacts_keeps_revision (this : LineClient.t) :
  keeps_revision (result (refreshContacts this)).
Proof.
  assert (Hc : forall err later,
             refreshContacts_catch err later
             = (fst (fst (fst (refreshContacts_catch err later))), [],
                snd (fst (refreshContacts_catch err later)),
                resolve (VError err)) /\
             LineClient.revision
               (fst (fst (fst (refreshContacts_catch err later))))
             = LineClient.revision later).
  { intros err later. unfold refreshContacts_catch.
    destruct err as [code reason|m|m]; [destruct (code =? 8)|..];
      now split. }
  intros answer later. unfold refreshContacts.
  destruct (_checkAuth this); cbn; [|now split].
  destruct (answer _getAllContactIds) as [ids|e].
  - cbn. destruct (answer (_getContacts ids)) as [records|e].
    + cbn. now split.
    + destruct (Hc e later) as [-> Hr]. cbn. now split.
  - destruct (Hc e later) as [-> Hr]. cbn. now split.
Qed.

Lemma page_keeps_revision (start count : Z) :
  keeps_revision (Await (_getMessageBoxCompactWrapUpList start count) page_then).
Proof.
  intros answer later. cbn [settle].
  destruct (page_then_starts_nothing
              (answer (_getMessageBoxCompactWrapUpList start count)) later)
    as (printed & v & ->).
  cbn. now split.
Qed.

Lemma settle_all_keeps_revision (answer : service) (queue : list promise) :
  Forall keeps_revision queue ->
  forall (fuel : nat) (later after : LineClient.t) (printed : list logentry)
         (asked : list request),
    settle_all fuel answer queue later = Some (after, printed, asked) ->
    LineClient.revision after = LineClient.revision later.
Proof.
  induction 1 as [|p rest Hp _ IH]; intros fuel later after printed asked.
  - destruct fuel; cbn; now intros [= <- _ _].
  - destruct fuel as [|fuel]; [discriminate|]. cbn [settle_all].
    destruct (Hp answer later) as [Hr Hl]. rewrite Hl, app_nil_r.
    destruct (settle_all fuel answer rest _) as [[[c ls] qs]|] eqn:E;
      [|discriminate].
    intros [= <- _ _]. rewrite (IH _ _ _ _ _ E). exact Hr.
Qed.

(** Whatever the remote service answers to the calls a repair has issued,
    and whenever it does, the revision of the session is not touched: the
    repairs of earlier cycles do not disturb the cursor. *)
Lemma repair_keeps_revision (fuel : nat) (this : LineClient.t)
  (promises : list promise) (printed : list logentry) :
  repair fuel this = Some (this, promises, printed) ->
  Forall keeps_revision promises.
Proof.
  unfold repair.
  destruct (refreshActiveRooms fuel _) as [o3|] eqn:E3; [|discriminate].
  intros [= _ <- _].
  assert (Hs : forall r, keeps_revision (Settled r)).
  { intros r answer later. now split. }
  unfold dropped. repeat rewrite Forall_app.
  assert (H1 : Forall keeps_revision (started (refreshGroups this))).
  { unfold refreshGroups. destruct (_checkAuth this); cbn; [|constructor].
    apply Forall_cons;
      [apply (refreshGroups_chain_keeps_revision _getGroupIdsJoined true
                (fun r => r))|].
    apply Forall_cons; [|apply Forall_nil].
    apply (refreshGroups_chain_keeps_revision _getGroupIdsInvited false
             (fun r => r)). }
  assert (H2 : keeps_revision (result (refreshGroups this))).
  { unfold refreshGroups. destruct (_checkAuth this); apply Hs. }
  assert (H3 : forall c, started (refreshContacts c) = []).
  { intro c. unfold refreshContacts. now destruct (_checkAuth c). }
  assert (H4 : Forall keeps_revision (started o3) /\
               keeps_revision (result o3)).
  { unfold refreshActiveRooms in E3. destruct (_checkAuth _).
    - destruct fuel as [|fuel]; [discriminate|].
      rewrite refreshActiveRooms_loop_once in E3. injection E3 as <-.
      split; [|apply Hs]. cbn.
      apply Forall_cons; [apply page_keeps_revision | apply Forall_nil].
    - injection E3 as <-. split; [constructor | apply Hs]. }
  rewrite H3.
  refine (conj (conj H1 _) (conj (conj (Forall_nil _) _) (conj (proj1 H4) _))).
  - apply Forall_cons; [exact H2 | apply Forall_nil].
  - apply Forall_cons;
      [apply refreshContacts_keeps_revision | apply Forall_nil].
  - apply Forall_cons; [apply H4 | apply Forall_nil].
Qed.
(** * Further properties of the code *)

(** ** The names of the enumerations *)

Lemma getOpTypeNameFromValue_In (enum : enumeration) (value : Z)
  (name : string) :
  getOpTypeNameFromValue enum value = Some name -> In (name, value) enum.
Proof.
  induction enum as [|[n v] rest IH]; simpl; [discriminate|].
  destruct (Z.eqb_spec value v) as [->|Hne].
  - intros [= ->]. now left.
  - intro H. right. now apply IH.
Qed.

(** X1: the reverse lookup of an enumeration whose values are distinct: a
    value of the enumeration gives back its name, a name is returned only
    for its own value, and a value outside the enumeration gives
    [undefined].  [getContentTypeNameFromValue] does the same. *)
Theorem name_of_value_round_trip (enum : enumeration) :
  NoDup (map snd enum) ->
  (forall name value,
      In (name, value) enum <-> getOpTypeNameFromValue enum value = Some name) /\
  (forall value,
      getOpTypeNameFromValue enum value = None <-> ~ In value (map snd enum)) /\
  (forall value,
      getContentTypeNameFromValue enum value
      = getOpTypeNameFromValue enum value).
Proof.
  intro Hnd. split; [|split].
  - intros name value. split; [|apply getOpTypeNameFromValue_In].
    induction enum as [|[n v] rest IH]; simpl; [tauto|].
    inversion Hnd as [|? ? Hnotin Hnd']; subst.
    intros [[= -> ->]|Hin].
    + now rewrite Z.eqb_refl.
    + destruct (Z.eqb_spec value v) as [->|Hne]; [|now apply IH].
      exfalso. apply Hnotin. apply in_map_iff. now exists (name, v).
  - intro value. clear Hnd.
    induction enum as [|[n v] rest IH]; simpl; [tauto|].
    destruct (Z.eqb_spec value v) as [->|Hne].
    + split; [discriminate | intro H; exfalso; apply H; now left].
    + rewrite IH. split; [intros H [Heq|Hin]; [congruence | tauto] | tauto].
  - intro value. clear Hnd.
    induction enum as [|[n v] rest IH]; simpl; [reflexivity|].
    now rewrite IH.
Qed.

(** ** Lookups *)

(** What a loop that returns the first element it accepts finds. *)
Lemma find_first {A : Type} (f : A -> bool) (l : list A) (x : A) :
  find f l = Some x <->
  exists before after,
    l = before ++ x :: after /\ f x = true /\
    forall y, In y before -> f y = false.
Proof.
  induction l as [|a l IH]; simpl.
  - split; [discriminate|]. intros (b & r & H & _). now destruct b.
  - destruct (f a) eqn:Ha.
    + split.
      * intros [= ->]. exists [], l. repeat split; auto. intros y [].
      * intros ([|b0 b] & r & H & Hx & Hb); injection H as H0 Hl; subst;
          auto.
        rewrite (Hb b0 (or_introl eq_refl)) in Ha. discriminate.
    + rewrite IH. split.
      * intros (b & r & -> & Hx & Hb). exists (a :: b), r.
        repeat split; auto. intros y [<-|Hy]; auto.
      * intros ([|b0 b] & r & H & Hx & Hb); injection H as H0 Hl; subst.
        -- congruence.
        -- exists b, r. repeat split; auto. intros y Hy. apply Hb. now right.
Qed.

Lemma find_nothing {A : Type} (f : A -> bool) (l : list A) :
  find f l = None <-> forall y, In y l -> f y = false.
Proof.
  split; [apply find_none|].
  induction l as [|a l IH]; simpl; auto.
  intro H. rewrite (H a (or_introl eq_refl)). apply IH. intros y Hy.
  apply H. now right.
Qed.

Lemma str_eq_true (a b : string) :
  JS.strict_eq (JS.str a) (JS.str b) = true <-> a = b.
Proof. rewrite strict_eq_true. split; congruence. Qed.

Lemma str_eq_false (a b : string) :
  JS.strict_eq (JS.str a) (JS.str b) = false <-> a <> b.
Proof. rewrite strict_eq_false. split; congruence. Qed.

(** X2: the lookups by id return the first entry of their store that has the
    id, and [undefined] exactly when no entry has it; entries that follow
    with the same id are never returned. *)
Theorem lookup_by_id_finds_the_first (this : LineClient.t) (id : string) :
  (forall c,
      getContactById this (JS.str id) = Some c <->
      exists before after,
        LineClient.contacts this = before ++ c :: after /\
        LineContact.id c = id /\
        ~ In id (map LineContact.id before)) /\
  (getContactById this (JS.str id) = None <->
   ~ In id (map LineContact.id (LineClient.contacts this))) /\
  (forall r,
      getRoomById this (JS.str id) = Some r <->
      exists before after,
        LineClient.rooms this = before ++ r :: after /\
        LineRoom.id r = id /\
        ~ In id (map LineRoom.id before)) /\
  (getRoomById this (JS.str id) = None <->
   ~ In id (map LineRoom.id (LineClient.rooms this))) /\
  (forall g,
      getGroupById this (JS.str id) = Some g <->
      exists before after,
        LineClient.groups this = before ++ g :: after /\
        LineGroup.id g = JS.str id /\
        ~ In (JS.str id) (map LineGroup.id before)) /\
  (getGroupById this (JS.str id) = None <->
   ~ In (JS.str id) (map LineGroup.id (LineClient.groups this))).
Proof.
  unfold getContactById, getRoomById, getGroupById.
  repeat split.
  - intro H. apply find_first in H. destruct H as (b & r & Hl & Hx & Hb).
    exists b, r. split; [exact Hl|]. split; [now apply str_eq_true|].
    intro Hin. apply in_map_iff in Hin. destruct Hin as (y & <- & Hy).
    specialize (Hb y Hy). apply str_eq_false in Hb. congruence.
  - intros (b & r & Hl & Hx & Hb). apply find_first. exists b, r.
    split; [exact Hl|]. split; [now apply str_eq_true|].
    intros y Hy. apply str_eq_false. intro Heq. apply Hb.
    apply in_map_iff. now exists y.
  - intros H Hin. apply in_map_iff in Hin. destruct Hin as (y & <- & Hy).
    pose proof (proj1 (find_nothing _ _) H y Hy) as Hf.
    apply str_eq_false in Hf. congruence.
  - intro H. apply find_nothing. intros y Hy. apply str_eq_false.
    intro Heq. apply H. apply in_map_iff. now exists y.
  - intro H. apply find_first in H. destruct H as (b & a & Hl & Hx & Hb).
    exists b, a. split; [exact Hl|]. split; [now apply str_eq_true|].
    intro Hin. apply in_map_iff in Hin. destruct Hin as (y & <- & Hy).
    specialize (Hb y Hy). apply str_eq_false in Hb. congruence.
  - intros (b & a & Hl & Hx & Hb). apply find_first. exists b, a.
    split; [exact Hl|]. split; [now apply str_eq_true|].
    intros y Hy. apply str_eq_false. intro Heq. apply Hb.
    apply in_map_iff. now exists y.
  - intros H Hin. apply in_map_iff in Hin. destruct Hin as (y & <- & Hy).
    pose proof (proj1 (find_nothing _ _) H y Hy) as Hf.
    apply str_eq_false in Hf. congruence.
  - intro H. apply find_nothing. intros y Hy. apply str_eq_false.
    intro Heq. apply H. apply in_map_iff. now exists y.
  - intro H. apply find_first in H. destruct H as (b & a & Hl & Hx & Hb).
    exists b, a. split; [exact Hl|]. split; [now apply strict_eq_true|].
    intro Hin. apply in_map_iff in Hin. destruct Hin as (y & Heq & Hy).
    specialize (Hb y Hy). apply strict_eq_false in Hb. congruence.
  - intros (b & a & Hl & Hx & Hb). apply find_first. exists b, a.
    split; [exact Hl|]. split; [now apply strict_eq_true|].
    intros y Hy. apply strict_eq_false. intro Heq. apply Hb.
    apply in_map_iff. now exists y.
  - intros H Hin. apply in_map_iff in Hin. destruct Hin as (y & Heq & Hy).
    pose proof (proj1 (find_nothing _ _) H y Hy) as Hf.
    apply strict_eq_false in Hf. congruence.
  - intro H. apply find_nothing. intros y Hy. apply strict_eq_false.
    intro Heq. apply H. apply in_map_iff. now exists y.
Qed.

(** X3: the lookups by name return the first entry of their store that has
    the name, and [undefined] exactly when no entry has it: of two entries
    with one name, the second is never returned. *)
Theorem lookup_by_name_finds_the_first (this : LineClient.t) (name : string) :
  (forall c,
      getContactByName this name = Some c <->
      exists before after,
        LineClient.contacts this = before ++ c :: after /\
        LineContact.name c = name /\
        ~ In name (map LineContact.name before)) /\
  (getContactByName this name = None <->
   ~ In name (map LineContact.name (LineClient.contacts this))) /\
  (forall g,
      getGroupByName this (JS.str name) = Some g <->
      exists before after,
        LineClient.groups this = before ++ g :: after /\
        LineGroup.name g = JS.str name /\
        ~ In (JS.str name) (map LineGroup.name before)) /\
  (getGroupByName this (JS.str name) = None <->
   ~ In (JS.str name) (map LineGroup.name (LineClient.groups this))).
Proof.
  unfold getContactByName, getGroupByName.
  repeat split.
  - intro H. apply find_first in H. destruct H as (b & r & Hl & Hx & Hb).
    exists b, r. split; [exact Hl|]. split; [now apply String.eqb_eq|].
    intro Hin. apply in_map_iff in Hin. destruct Hin as (y & <- & Hy).
    specialize (Hb y Hy). apply String.eqb_neq in Hb. congruence.
  - intros (b & r & Hl & Hx & Hb). apply find_first. exists b, r.
    split; [exact Hl|]. split; [now apply String.eqb_eq|].
    intros y Hy. apply String.eqb_neq. intro Heq. apply Hb.
    apply in_map_iff. now exists y.
  - intros H Hin. apply in_map_iff in Hin. destruct Hin as (y & <- & Hy).
    pose proof (proj1 (find_nothing _ _) H y Hy) as Hf.
    apply String.eqb_neq in Hf. congruence.
  - intro H. apply find_nothing. intros y Hy. apply String.eqb_neq.
    intro Heq. apply H. apply in_map_iff. now exists y.
  - intro H. apply find_first in H. destruct H as (b & a & Hl & Hx & Hb).
    exists b, a. split; [exact Hl|]. split; [now apply strict_eq_true|].
    intro Hin. apply in_map_iff in Hin. destruct Hin as (y & Heq & Hy).
    specialize (Hb y Hy). apply strict_eq_false in Hb. congruence.
  - intros (b & a & Hl & Hx & Hb). apply find_first. exists b, a.
    split; [exact Hl|]. split; [now apply strict_eq_true|].
    intros y Hy. apply strict_eq_false. intro Heq. apply Hb.
    apply in_map_iff. now exists y.
  - intros H Hin. apply in_map_iff in Hin. destruct Hin as (y & Heq & Hy).
    pose proof (proj1 (find_nothing _ _) H y Hy) as Hf.
    apply strict_eq_false in Hf. congruence.
  - intro H. apply find_nothing. intros y Hy. apply strict_eq_false.
    intro Heq. apply H. apply in_map_iff. now exists y.
Qed.

(** X4: [getContactOrRoomOrGroupById]: what it returns has the id asked for and
    comes from a store of the client; a contact is preferred to a room and
    to a group of the same id, a room to a group; it returns [undefined]
    exactly when none of the three stores has the id. *)
Theorem lookup_prefers_contact_then_room (this : LineClient.t) (id : JS.atom) :
  (forall e,
      getContactOrRoomOrGroupById this id = Some e ->
      entity_id e = id /\
      match e with
      | AContact c => In c (LineClient.contacts this)
      | ARoom r =>
          In r (LineClient.rooms this) /\ getContactById this id = None
      | AGroup g =>
          In g (LineClient.groups this) /\ getContactById this id = None /\
          getRoomById this id = None
      end) /\
  (forall c,
      In c (LineClient.contacts this) -> JS.str (LineContact.id c) = id ->
      exists c',
        getContactOrRoomOrGroupById this id = Some (AContact c') /\
        LineContact.id c' = LineContact.id c) /\
  (getContactOrRoomOrGroupById this id = None <->
   getContactById this id = None /\ getRoomById this id = None /\
   getGroupById this id = None).
Proof.
  unfold getContactOrRoomOrGroupById. split; [|split].
  - intros e.
    destruct (getContactById this id) as [c|] eqn:Ec;
      [|destruct (getRoomById this id) as [r|] eqn:Er;
        [|destruct (getGroupById this id) as [g|] eqn:Eg]];
      intros [= <-].
    + apply find_some in Ec. destruct Ec as [Hin Heq].
      apply strict_eq_true in Heq. now split.
    + apply find_some in Er. destruct Er as [Hin Heq].
      apply strict_eq_true in Heq. now split.
    + apply find_some in Eg. destruct Eg as [Hin Heq].
      apply strict_eq_true in Heq. now split.
  - intros c Hin Heq.
    destruct (getContactById this id) as [c'|] eqn:Ec.
    + exists c'. split; [reflexivity|].
      apply find_some in Ec. destruct Ec as [_ Hc'].
      apply strict_eq_true in Hc'. congruence.
    + exfalso. pose proof (find_none _ _ Ec c Hin) as Hf. cbv beta in Hf.
      apply strict_eq_false in Hf. contradiction.
  - destruct (getContactById this id);
      [|destruct (getRoomById this id); [|destruct (getGroupById this id)]];
      split; try discriminate; try tauto;
      intros (H1 & H2 & H3); discriminate.
Qed.

(** ** Contacts after a refresh *)

(** X5: after a [refreshContacts] whose two calls succeed, every id of a record
    the remote returned resolves, through [getContactById], to a contact
    with that id built from one of the records, and no other id resolves to
    a contact: what the store held before is gone. *)
Theorem refreshed_contacts_resolve (this later : LineClient.t)
  (answer : service) (ids : list string) (records : list Contact.t) :
  _checkAuth this = true ->
  answer _getAllContactIds = Fulfilled ids ->
  answer (_getContacts ids) = Fulfilled records ->
  let refreshed :=
    client_after (settle answer (result (refreshContacts this)) later) in
  forall id,
    (In id (map Contact.mid records) ->
     exists c,
       getContactById refreshed (JS.str id) = Some c /\
       LineContact.id c = id /\
       In c (map new_LineContact records)) /\
    (~ In id (map Contact.mid records) ->
     getContactById refreshed (JS.str id) = None).
Proof.
  intros H Hi Hc refreshed id.
  destruct (refreshContacts_stores this later answer ids records H Hi Hc)
    as (_ & Hperm & _).
  fold refreshed in Hperm. unfold getContactById. split.
  - intro Hin. apply in_map_iff in Hin. destruct Hin as (r & <- & Hr).
    destruct (find _ (LineClient.contacts refreshed)) as [c|] eqn:Ef.
    + exists c. split; [reflexivity|].
      apply find_some in Ef. destruct Ef as [Hc' Heq].
      apply str_eq_true in Heq. split; [exact Heq|].
      now apply (Permutation_in _ Hperm).
    + exfalso.
      assert (Hn : In (new_LineContact r) (LineClient.contacts refreshed)).
      { apply (Permutation_in _ (Permutation_sym Hperm)).
        now apply in_map. }
      pose proof (find_none _ _ Ef _ Hn) as Hf. cbv beta in Hf.
      apply str_eq_false in Hf. now apply Hf.
  - intro Hnot. apply find_nothing. intros c Hin. apply str_eq_false.
    intro Heq. apply Hnot.
    apply (Permutation_in _ Hperm) in Hin. apply in_map_iff in Hin.
    destruct Hin as (r & <- & Hr). apply in_map_iff. exists r. now split.
Qed.
(** X6: when a call of [refreshContacts] fails, the promise is fulfilled with
    the error, not rejected.  An error of code 8 clears the token and the
    certificate, after which the gate is closed: the next [refreshContacts]
    is refused without a remote call.  Any other error leaves the client as
    it was and prints nothing. *)
Theorem refreshContacts_failure (this later : LineClient.t) (answer : service)
  (e : error) :
  _checkAuth this = true ->
  (answer _getAllContactIds = Rejected e \/
   exists ids,
     answer _getAllContactIds = Fulfilled ids /\
     answer (_getContacts ids) = Rejected e) ->
  let x := settle answer (result (refreshContacts this)) later in
  settled_with x = Fulfilled (VError e) /\
  left_over x = [] /\
  (forall reason,
      e = TalkException 8 reason ->
      client_after x = LineClient.clear_auth later /\
      LineClient.authToken (client_after x) = None /\
      LineClient.certificate (client_after x) = None /\
      LineClient.contacts (client_after x) = LineClient.contacts later /\
      refreshContacts (client_after x)
      = only (client_after x) please_login) /\
  ((forall reason, e <> TalkException 8 reason) ->
   client_after x = later /\ lines x = []).
Proof.
  intros H Hfail. cbv zeta.
  assert (Hset : exists qs,
             settle answer (result (refreshContacts this)) later
             = mk_settlement (client (refreshContacts_catch e later)) []
                 (printed (refreshContacts_catch e later)) qs
                 (Fulfilled (VError e))).
  { unfold refreshContacts. rewrite H. cbn [result snd only settle].
    destruct Hfail as [Hf|(ids & Hi & Hf)];
      [rewrite Hf | rewrite Hi; cbn [only settle]; rewrite Hf];
      unfold refreshContacts_catch;
      (destruct e as [code reason|m|m]; [destruct (code =? 8)|..]);
      cbn; eexists; reflexivity. }
  destruct Hset as (qs & ->).
  cbn [settled_with left_over client_after lines].
  split; [reflexivity|]. split; [reflexivity|].
  unfold refreshContacts_catch. split.
  - intros reason ->. rewrite Z.eqb_refl. cbn. repeat split.
  - intro Hne. destruct e as [code reason|m|m]; try (now split).
    destruct (Z.eqb_spec code 8) as [->|Hc]; [|now split].
    now destruct (Hne reason).
Qed.
(** ** Groups *)

Lemma checkAuth_set_groups (l : list LineGroup.t) (this : LineClient.t) :
  _checkAuth (LineClient.set_groups l this) = _checkAuth this.
Proof. reflexivity. Qed.

(** What the chain of [addGroupsWithIds] does when the reply arrives. *)
Lemma addGroupsWithIds_settles (this later : LineClient.t) (answer : service)
  (ids : list string) (joined : bool) :
  _checkAuth this = true ->
  settle answer (result (addGroupsWithIds this ids joined)) later
  = match answer (_getGroups ids) with
    | Fulfilled records =>
        let groups :=
          JS.sort group_comparefn
            (LineClient.groups later
             ++ map (fun g => new_LineGroup (Some g) joined) records) in
        mk_settlement (LineClient.set_groups groups later) [] []
                      [_getGroups ids] (Fulfilled (VGroups groups))
    | Rejected e =>
        mk_settlement later [] [] [_getGroups ids] (Fulfilled (VError e))
    end.
Proof.
  intro H. unfold addGroupsWithIds. rewrite H. cbn.
  destruct (answer (_getGroups ids)); reflexivity.
Qed.

(** X7: [addGroupsWithIds] only ever adds.  On success the store holds what it
    held when the reply arrived together with one group per record, each
    with the flag given; its length grows by the number of records, so a
    group that was in the store already is there twice.  On failure the
    promise is fulfilled with the error and the client is as it was. *)
Theorem addGroupsWithIds_appends (this later : LineClient.t)
  (answer : service) (ids : list string) (joined : bool) :
  _checkAuth this = true ->
  let x := settle answer (result (addGroupsWithIds this ids joined)) later in
  match answer (_getGroups ids) with
  | Fulfilled records =>
      Permutation
        (LineClient.groups (client_after x))
        (LineClient.groups later
         ++ map (fun g => new_LineGroup (Some g) joined) records) /\
      (List.length (LineClient.groups (client_after x))
       = List.length (LineClient.groups later) + List.length records)%nat /\
      (forall g, In g (LineClient.groups later) ->
                 In g (LineClient.groups (client_after x))) /\
      settled_with x = Fulfilled (VGroups (LineClient.groups (client_after x))) /\
      LineClient.contacts (client_after x) = LineClient.contacts later /\
      LineClient.rooms (client_after x) = LineClient.rooms later
  | Rejected e =>
      client_after x = later /\ settled_with x = Fulfilled (VError e)
  end.
Proof.
  intro H. cbv zeta. rewrite (addGroupsWithIds_settles this later answer ids
                                joined H).
  destruct (answer (_getGroups ids)) as [records|e]; [|now split].
  cbv zeta. cbn [client_after settled_with]. unfold LineClient.set_groups.
  cbn [LineClient.groups LineClient.contacts LineClient.rooms].
  pose proof (sort_permutation group_comparefn
                     (LineClient.groups later
                      ++ map (fun g => new_LineGroup (Some g) joined) records))
    as Hp.
  split; [exact Hp|]. split.
  - rewrite (Permutation_length Hp), length_app, length_map. reflexivity.
  - split; [|now repeat split].
    intros g Hg. apply (Permutation_in _ (Permutation_sym Hp)).
    apply in_or_app. now left.
Qed.

(** What each of the two chains of [refreshGroups] does once its two calls
    are answered. *)
Lemma joined_chain_settles (later : LineClient.t) (answer : service)
  (ids : list string) (records : list Group.t) :
  _checkAuth later = true ->
  answer _getGroupIdsJoined = Fulfilled ids ->
  answer (_getGroups ids) = Fulfilled records ->
  settle answer
    (Await _getGroupIdsJoined (fun r this =>
       match r with
       | Fulfilled groupIdsJoined => addGroupsWithIds this groupIdsJoined true
       | Rejected e => only this (reject e)
       end)) later
  = let groups :=
      JS.sort group_comparefn
        (LineClient.groups later
         ++ map (fun g => new_LineGroup (Some g) true) records) in
    mk_settlement (LineClient.set_groups groups later) [] []
      [_getGroupIdsJoined; _getGroups ids] (Fulfilled (VGroups groups)).
Proof.
  intros H Hi Hr. cbn [settle]. rewrite Hi.
  unfold addGroupsWithIds. rewrite H. cbn. now rewrite Hr.
Qed.

Lemma invited_chain_settles (later : LineClient.t) (answer : service)
  (ids : list string) (records : list Group.t) :
  _checkAuth later = true ->
  answer _getGroupIdsInvited = Fulfilled ids ->
  answer (_getGroups ids) = Fulfilled records ->
  settle answer
    (Await _getGroupIdsInvited (fun r this =>
       match r with
       | Fulfilled groupIdsInvited =>
           addGroupsWithIds this groupIdsInvited false
       | Rejected e => only this (reject e)
       end)) later
  = let groups :=
      JS.sort group_comparefn
        (LineClient.groups later
         ++ map (fun g => new_LineGroup (Some g) false) records) in
    mk_settlement (LineClient.set_groups groups later) [] []
      [_getGroupIdsInvited; _getGroups ids] (Fulfilled (VGroups groups)).
Proof.
  intros H Hi Hr. cbn [settle]. rewrite Hi.
  unfold addGroupsWithIds. rewrite H. cbn. now rewrite Hr.
Qed.

(** X8: [refreshGroups] answers at once with the store it holds, before any
    reply.  Once its two chains are answered, in either order, the store
    holds what it held before, the joined groups with the flag [true] and
    the invited groups with the flag [false]. *)
Theorem refreshGroups_adds_joined_and_invited (fuel : nat)
  (this : LineClient.t) (answer : service) (joined invited : list string)
  (rj ri : list Group.t) (queue : list promise) :
  _checkAuth this = true ->
  answer _getGroupIdsJoined = Fulfilled joined ->
  answer _getGroupIdsInvited = Fulfilled invited ->
  answer (_getGroups joined) = Fulfilled rj ->
  answer (_getGroups invited) = Fulfilled ri ->
  Permutation (started (refreshGroups this)) queue ->
  result (refreshGroups this) = resolve (VGroups (LineClient.groups this)) /\
  client (refreshGroups this) = this /\
  exists final printed asked,
    settle_all (S (S fuel)) answer queue this = Some (final, printed, asked) /\
    Permutation
      (LineClient.groups final)
      (LineClient.groups this
       ++ map (fun g => new_LineGroup (Some g) true) rj
       ++ map (fun g => new_LineGroup (Some g) false) ri) /\
    Permutation asked
      [_getGroupIdsJoined; _getGroups joined;
       _getGroupIdsInvited; _getGroups invited].
Proof.
  intros H Hj Hi Hrj Hri Hq. unfold refreshGroups in *. rewrite H in *.
  split; [reflexivity|]. split; [reflexivity|].
  cbn [started fst snd] in Hq.
  apply Permutation_length_2_inv in Hq.
  destruct Hq as [-> | ->]; cbn [settle_all].
  - rewrite (joined_chain_settles this answer joined rj H Hj Hrj).
    cbv zeta. cbn [left_over client_after app lines answered].
    rewrite (invited_chain_settles _ answer invited ri
               (eq_trans (checkAuth_set_groups _ this) H) Hi Hri).
    cbv zeta. cbn [left_over client_after app lines answered].
    assert (Hend : forall c,
               settle_all fuel answer [] c = Some (c, [], [])).
    { intro c. now destruct fuel. }
    rewrite Hend. do 3 eexists. split; [reflexivity|]. split.
    + unfold LineClient.set_groups. cbn [LineClient.groups].
      rewrite sort_permutation, sort_permutation, <- app_assoc. reflexivity.
    + reflexivity.
  - rewrite (invited_chain_settles this answer invited ri H Hi Hri).
    cbv zeta. cbn [left_over client_after app lines answered].
    rewrite (joined_chain_settles _ answer joined rj
               (eq_trans (checkAuth_set_groups _ this) H) Hj Hrj).
    cbv zeta. cbn [left_over client_after app lines answered].
    assert (Hend : forall c,
               settle_all fuel answer [] c = Some (c, [], [])).
    { intro c. now destruct fuel. }
    rewrite Hend. do 3 eexists. split; [reflexivity|]. split.
    + unfold LineClient.set_groups. cbn [LineClient.groups].
      rewrite sort_permutation, sort_permutation, <- app_assoc.
      apply Permutation_app_head. apply Permutation_app_comm.
    + apply (Permutation_app_comm [_; _] [_; _]).
Qed.
Lemma filter_keeps_all {A : Type} (f : A -> bool) (l : list A) :
  (forall x, In x l -> f x = true) -> filter f l = l.
Proof.
  induction l as [|a l IH]; intro H; simpl; auto.
  rewrite (H a (or_introl eq_refl)), IH; auto.
  intros x Hx. apply H. now right.
Qed.

(** The store after a successful [createGroupWithIds]. *)
Lemma createGroupWithIds_stores (this later : LineClient.t)
  (answer : service) (name : string) (ids : list string)
  (created : Group.t) :
  _checkAuth this = true ->
  answer (_createGroup name ids) = Fulfilled created ->
  LineClient.groups
    (client_after
       (settle answer (result (createGroupWithIds this name ids)) later))
  = LineClient.groups later ++ [new_LineGroup (Some created) true].
Proof.
  intros H Hc. unfold createGroupWithIds. rewrite H.
  cbn [result snd only settle]. now rewrite Hc.
Qed.

(** X9: a group created with [createGroupWithIds] is put at the end of the
    store, marked as joined, and the promise is fulfilled with it; a lookup
    of its id then finds a group, and finds the created one when the store
    held no group of that id.  [createGroupWithContacts] is the same call
    on the ids of the contacts, in their order. *)
Theorem created_group_is_stored_last (this later : LineClient.t)
  (answer : service) (name : string) (ids : list string)
  (created : Group.t) :
  _checkAuth this = true ->
  answer (_createGroup name ids) = Fulfilled created ->
  let x := settle answer (result (createGroupWithIds this name ids)) later in
  let group := new_LineGroup (Some created) true in
  LineClient.groups (client_after x) = LineClient.groups later ++ [group] /\
  settled_with x = Fulfilled (VGroup group) /\
  answered x = [_createGroup name ids] /\
  LineGroup.isJoined group = true /\
  (exists g,
      getGroupById (client_after x) (JS.str (Group.id created)) = Some g /\
      LineGroup.id g = JS.str (Group.id created)) /\
  (~ In (JS.str (Group.id created))
        (map LineGroup.id (LineClient.groups later)) ->
   getGroupById (client_after x) (JS.str (Group.id created)) = Some group) /\
  (forall contacts,
      createGroupWithContacts this name contacts
      = createGroupWithIds this name (map LineContact.id contacts)).
Proof.
  intros H Hc. cbv zeta. unfold createGroupWithIds, createGroupWithContacts.
  rewrite H. cbn [result snd only settle]. rewrite Hc.
  cbn [only settle client_after settled_with answered].
  unfold LineClient.set_groups at 1 2 3. cbn [LineClient.groups].
  split; [reflexivity|]. split; [reflexivity|]. split; [reflexivity|].
  split; [reflexivity|].
  assert (Hid : LineGroup.id (new_LineGroup (Some created) true)
                = JS.str (Group.id created)) by reflexivity.
  split; [|split; [|reflexivity]].
  - unfold getGroupById. cbn [LineClient.groups].
    match goal with
    | |- context [find ?f ?l] => destruct (find f l) as [g|] eqn:Ef
    end.
    + exists g. split; [reflexivity|].
      apply find_some in Ef. now apply strict_eq_true.
    + exfalso.
      assert (Hin : In (new_LineGroup (Some created) true)
                       (LineClient.groups later
                        ++ [new_LineGroup (Some created) true])).
      { apply in_or_app. right. now left. }
      pose proof (find_none _ _ Ef _ Hin) as Hf. cbv beta in Hf.
      rewrite Hid in Hf. apply strict_eq_false in Hf. now apply Hf.
  - intro Hnot. unfold getGroupById. cbn [LineClient.groups].
    apply find_first. exists (LineClient.groups later), [].
    split; [reflexivity|]. split; [now apply strict_eq_true|].
    intros y Hy. apply strict_eq_false. intro Heq. apply Hnot.
    apply in_map_iff. now exists y.
Qed.

(** X10: creating a group and leaving it again gives back the store of before,
    when that store held no group of the new id. *)
Theorem create_then_leave_restores_the_store (this later : LineClient.t)
  (answer : service) (name : string) (ids : list string)
  (created : Group.t) :
  _checkAuth this = true ->
  _checkAuth later = true ->
  answer (_createGroup name ids) = Fulfilled created ->
  answer (_leaveGroup (JS.str (Group.id created))) = Fulfilled tt ->
  ~ In (JS.str (Group.id created))
       (map LineGroup.id (LineClient.groups later)) ->
  let x := settle answer (result (createGroupWithIds this name ids)) later in
  let group := new_LineGroup (Some created) true in
  let y :=
    settle answer (result (leaveGroup (client_after x) group))
           (client_after x) in
  LineClient.groups (client_after x) <> LineClient.groups later /\
  LineClient.groups (client_after y) = LineClient.groups later /\
  settled_with y = Fulfilled (VBoolean true).
Proof.
  intros H Hl Hc Hleave Hnot. cbv zeta.
  pose proof (createGroupWithIds_stores this later answer name ids created
                H Hc) as Hg.
  assert (Hauth : _checkAuth
                    (client_after
                       (settle answer
                          (result (createGroupWithIds this name ids)) later))
                  = true).
  { unfold createGroupWithIds. rewrite H. cbn [result snd only settle].
    rewrite Hc. exact Hl. }
  unfold leaveGroup. rewrite Hauth. cbn [result snd only settle].
  cbn [LineGroup.id new_LineGroup]. rewrite Hleave.
  cbn [only settle client_after settled_with]. unfold LineClient.set_groups at 1.
  cbn [LineClient.groups]. rewrite Hg. split; [|split; [|reflexivity]].
  - intro Heq. apply (f_equal (@List.length _)) in Heq.
    rewrite length_app in Heq. cbn in Heq. lia.
  - rewrite filter_app. cbn [filter]. unfold other_group at 2.
    cbn [LineGroup.id new_LineGroup].
    rewrite (proj2 (strict_eq_true _ _) eq_refl). cbn [negb].
    rewrite app_nil_r. apply filter_keeps_all. intros g Hin.
    apply other_group_spec. cbn [LineGroup.id new_LineGroup].
    intro Heq. apply Hnot. apply in_map_iff. now exists g.
Qed.
(** X11: leaving a room or a group whose id the store does not hold still
    issues the remote call; when the call succeeds the promise is fulfilled
    with [true] and the store is what it was. *)
Theorem leave_of_an_absent_entry (this later : LineClient.t)
  (answer : service) (group : LineGroup.t) (room : LineRoom.t) :
  _checkAuth this = true ->
  (~ In (LineRoom.id room) (map LineRoom.id (LineClient.rooms later)) ->
   answer (_leaveRoom (LineRoom.id room)) = Fulfilled tt ->
   let x := settle answer (result (LineRoom_leave this room)) later in
   answered x = [_leaveRoom (LineRoom.id room)] /\
   settled_with x = Fulfilled (VBoolean true) /\
   LineClient.rooms (client_after x) = LineClient.rooms later) /\
  (~ In (LineGroup.id group) (map LineGroup.id (LineClient.groups later)) ->
   answer (_leaveGroup (LineGroup.id group)) = Fulfilled tt ->
   let x := settle answer (result (leaveGroup this group)) later in
   answered x = [_leaveGroup (LineGroup.id group)] /\
   settled_with x = Fulfilled (VBoolean true) /\
   LineClient.groups (client_after x) = LineClient.groups later).
Proof.
  intro H. unfold LineRoom_leave, leaveRoom, leaveGroup. rewrite H.
  cbn [result snd only settle]. split; intros Hnot Ha; cbv zeta; rewrite Ha;
    cbn [only settle client_after settled_with answered];
    (split; [reflexivity|]); (split; [reflexivity|]).
  - unfold LineClient.set_rooms. cbn [LineClient.rooms].
    apply filter_keeps_all. intros r Hin. apply other_room_spec.
    intro Heq. apply Hnot. apply in_map_iff. now exists r.
  - unfold LineClient.set_groups. cbn [LineClient.groups].
    apply filter_keeps_all. intros g Hin. apply other_group_spec.
    intro Heq. apply Hnot. apply in_map_iff. now exists g.
Qed.

(** X12: the methods of a group check its flag before they call the client:
    accepting the invitation of a joined group and leaving a group that is
    not joined are refused without a remote call, token or not.  Accepting
    an invitation changes neither the store nor the flag of the group, so
    [leave] on that group is still refused after the invitation has been
    accepted. *)
Theorem accepting_does_not_mark_joined (this later : LineClient.t)
  (answer : service) (group : LineGroup.t) :
  _checkAuth this = true ->
  (LineGroup.isJoined group = true ->
   forall c,
     LineGroup_acceptGroupInvitation c group
     = only c (reject (Error "You are already in group"))) /\
  (LineGroup.isJoined group = false ->
   let x :=
     settle answer (result (LineGroup_acceptGroupInvitation this group))
            later in
   answered x = [_acceptGroupInvitation (LineGroup.id group)] /\
   client_after x = later /\
   (forall r,
       answer (_acceptGroupInvitation (LineGroup.id group)) = Fulfilled r ->
       settled_with x
       = Fulfilled (VReply (_acceptGroupInvitation (LineGroup.id group)) r)) /\
   LineGroup_leave (client_after x) group
   = only later (reject (Error "You are not joined to group"))).
Proof.
  intro H. unfold LineGroup_acceptGroupInvitation, LineGroup_leave.
  split; intro Hj; rewrite Hj; [reflexivity|].
  cbv zeta. unfold acceptGroupInvitation, remote. rewrite H. cbn.
  destruct (answer (_acceptGroupInvitation (LineGroup.id group))) as [a|e];
    cbn; repeat split; try discriminate.
  now intros r [= <-].
Qed.

(** ** Rooms *)

Lemma push_loop_pushes (n : nat) :
  forall contacts contactIds,
    push_loop n contacts contactIds
    = (contacts ++ repeat None n, contactIds).
Proof.
  induction n as [|n IH]; intros contacts contactIds; simpl.
  - now rewrite app_nil_r.
  - rewrite IH, <- app_assoc. reflexivity.
Qed.

(** X13: the loop that is meant to collect the ids of the contacts, in
    [createRoomWithContacts] and [inviteIntoRoom], collects none: it leaves
    the list of ids empty and appends one [undefined] per contact to the
    array of the caller.  With a token, whatever contacts are passed, the
    room is created with no member and the invitation names nobody;
    [createGroupWithContacts] does send the ids. *)
Theorem room_calls_carry_no_id (this : LineClient.t) (room : LineRoom.t)
  (name : string) (contacts : list LineContact.t) :
  _checkAuth this = true ->
  room_contactIds contacts
  = (map Some contacts ++ repeat None (List.length contacts), []) /\
  issued (createRoomWithContacts this contacts)
  = [_createRoom (snd (room_contactIds contacts))] /\
  issued (createRoomWithContacts this contacts) = [_createRoom []] /\
  issued (inviteIntoRoom this room contacts)
  = [_inviteIntoRoom (LineRoom.id room) (snd (room_contactIds contacts))] /\
  issued (inviteIntoRoom this room contacts)
  = [_inviteIntoRoom (LineRoom.id room) []] /\
  issued (createGroupWithContacts this name contacts)
  = [_createGroup name (map LineContact.id contacts)].
Proof.
  intro H. unfold room_contactIds. rewrite push_loop_pushes.
  unfold createRoomWithContacts, inviteIntoRoom, createGroupWithContacts.
  rewrite H. repeat split.
Qed.
(** ** More on the poll cycle *)

Lemma set_revision_same (this : LineClient.t) :
  LineClient.set_revision (LineClient.revision this) this = this.
Proof. now destruct this. Qed.

(** X14: whatever the remote service answers, a cycle changes nothing of the
    client but its revision, which it never lowers: token, certificate,
    profile and the three stores are what they were.  It makes at most one
    fetch, emits at most one triple, and a cycle that emits nothing leaves
    the client as it was. *)
Theorem a_cycle_touches_only_the_revision (fuel : nat) (count : Z)
  (answer : service) (this : LineClient.t) (x : run) :
  cycle fuel count answer this = Some x ->
  after x = LineClient.set_revision (LineClient.revision (after x)) this /\
  LineClient.revision this <= LineClient.revision (after x) /\
  (emitted x = [] -> after x = this) /\
  (List.length (emitted x) <= 1)%nat /\
  (List.length (fetches x) <= 1)%nat.
Proof.
  intro Hc. apply (cycle_more_fuel fuel 0) in Hc.
  unfold cycle, longPoll in Hc.
  assert (Hsame : forall ps ls fs v,
             Some (mk_run this ps ls fs [] v) = Some x ->
             (List.length fs <= 1)%nat ->
             after x = LineClient.set_revision (LineClient.revision (after x))
                         this /\
             LineClient.revision this <= LineClient.revision (after x) /\
             (emitted x = [] -> after x = this) /\
             (List.length (emitted x) <= 1)%nat /\
             (List.length (fetches x) <= 1)%nat).
  { intros ps ls fs v [= <-] Hfs. cbn.
    rewrite set_revision_same. repeat split; auto; lia. }
  destruct (_checkAuth this) eqn:H; [|apply (Hsame _ _ _ _ Hc); cbn; lia].
  cbn [drive] in Hc.
  destruct (answer (_fetchOperations (LineClient.revision this) count))
    as [[[|operation rest]|]|e].
  - apply (Hsame _ _ _ _ Hc). cbn. lia.
  - cbn [longPoll_operations] in Hc.
    assert (Hmsg : forall raw,
               match
                 match longPoll_message 1 operation raw this with
                 | Some (this1, ps, ls, g1) =>
                     match drive answer g1 this1 with
                     | Some x0 =>
                         Some (mk_run (after x0) (ps ++ in_flight x0)
                                 (ls ++ console x0)
                                 (_fetchOperations (LineClient.revision this)
                                    count :: fetches x0)
                                 (emitted x0) (completion x0))
                     | None => None
                     end
                 | None => None
                 end
               with
               | Some x0 =>
                   Some (mk_run (after x0) ([] ++ in_flight x0)
                           ([] ++ console x0) (fetches x0) (emitted x0)
                           (completion x0))
               | None => None
               end = Some x ->
               after x
               = LineClient.set_revision (LineClient.revision (after x)) this /\
               LineClient.revision this <= LineClient.revision (after x) /\
               (emitted x = [] -> after x = this) /\
               (List.length (emitted x) <= 1)%nat /\
               (List.length (fetches x) <= 1)%nat).
    { intros raw Hx.
      destruct (longPoll_message_yields 0 operation raw this H)
        as (ps & Hy & _).
      rewrite Hy in Hx. cbn in Hx. injection Hx as <-. cbn.
      repeat split; try discriminate; lia. }
    destruct (Operation.type operation);
      try (destruct (Operation.message operation) as [raw|];
           [now apply (Hmsg raw) | apply (Hsame _ _ _ _ Hc); cbn; lia]).
    apply (Hsame _ _ _ _ Hc). cbn. lia.
  - apply (Hsame _ _ _ _ Hc). cbn. lia.
  - cbn [longPoll_operations] in Hc. unfold longPoll_catch in Hc.
    destruct e as [code reason|m|m]; [destruct (code =? 9)|..];
      apply (Hsame _ _ _ _ Hc); cbn; lia.
Qed.

(** What a cycle does with a list headed by an operation it cannot turn
    into a message. *)
Lemma cycle_without_message (fuel : nat) (count : Z) (answer : service)
  (this : LineClient.t) (operation : Operation.t)
  (rest : list Operation.t) :
  _checkAuth this = true ->
  answer (_fetchOperations (LineClient.revision this) count)
  = Fulfilled (Some (operation :: rest)) ->
  message_bearing operation = false \/ Operation.message operation = None ->
  exists printed,
    cycle fuel count answer this
    = Some (mk_run this [] printed
              [_fetchOperations (LineClient.revision this) count] []
              (Fulfilled (if message_bearing operation then VUndefined
                          else VOperation operation))).
Proof.
  intros H Hf Hno. unfold cycle, longPoll. rewrite H. cbn [drive].
  rewrite Hf. cbn [longPoll_operations]. unfold message_bearing in *.
  destruct (Operation.type operation);
    destruct Hno as [Hb|Hm]; try discriminate;
    try (rewrite Hm); eexists; reflexivity.
Qed.

(** X15: the polling makes no progress past an operation it does not process.
    When the list the remote service returns for the revision of the
    session is headed by an operation of another type, or of a message type
    without its message, a cycle returns (the operation, or [undefined])
    and leaves the client, its revision included, as it was: the next
    cycle fetches with the same revision, and any number of cycles end
    where the first ended. *)
Theorem polling_stalls_without_a_message (n fuel : nat) (count : Z)
  (answer : service) (this : LineClient.t) (operation : Operation.t)
  (rest : list Operation.t) :
  _checkAuth this = true ->
  answer (_fetchOperations (LineClient.revision this) count)
  = Fulfilled (Some (operation :: rest)) ->
  message_bearing operation = false \/ Operation.message operation = None ->
  poll n fuel count answer this
  = Some (this,
          repeat (Fulfilled (if message_bearing operation then VUndefined
                             else VOperation operation)) n).
Proof.
  intros H Hf Hno.
  destruct (cycle_without_message fuel count answer this operation rest
              H Hf Hno) as (printed & Hc).
  induction n as [|n IH]; cbn [poll repeat]; [reflexivity|].
  rewrite Hc. cbn [after completion]. now rewrite IH.
Qed.
(** ** Errors and replies of the other methods *)

(** X16: unlike [refreshContacts] and [addGroupsWithIds], which fulfil their
    promise with the error, [getLastOpRevision], [getProfile],
    [createGroupWithIds], [createRoomWithIds], [getMessageBox] and
    [getRecentMessages] pass a failure of their remote call on: the promise
    is rejected with the very error of the call, and the client is left as
    it was. *)
Theorem remote_errors_are_passed_on (this later : LineClient.t)
  (answer : service) (e : error) :
  _checkAuth this = true ->
  (answer _getLastOpRevision = Rejected e ->
   settle answer (result (getLastOpRevision this)) later
   = mk_settlement later [] [] [_getLastOpRevision] (Rejected e)) /\
  (answer _getProfile = Rejected e ->
   settle answer (result (getProfile this)) later
   = mk_settlement later [] [] [_getProfile] (Rejected e)) /\
  (forall name ids,
      answer (_createGroup name ids) = Rejected e ->
      settle answer (result (createGroupWithIds this name ids)) later
      = mk_settlement later [] [] [_createGroup name ids] (Rejected e)) /\
  (forall ids,
      answer (_createRoom ids) = Rejected e ->
      settle answer (result (createRoomWithIds this ids)) later
      = mk_settlement later [] [] [_createRoom ids] (Rejected e)) /\
  (forall id,
      answer (_getMessageBoxCompactWrapUp id) = Rejected e ->
      settle answer (result (getMessageBox this id)) later
      = mk_settlement later [] [] [_getMessageBoxCompactWrapUp id]
          (Rejected e)) /\
  (forall box n,
      answer (_getRecentMessages (MessageBox.id box) n) = Rejected e ->
      settle answer (result (getRecentMessages this box n)) later
      = mk_settlement later [] []
          [_getRecentMessages (MessageBox.id box) n] (Rejected e)).
Proof.
  intro H.
  unfold getLastOpRevision, getProfile, createGroupWithIds, createRoomWithIds,
    getMessageBox, getRecentMessages.
  rewrite H. cbn [result snd only settle].
  repeat split; intros; rewrite H0; reflexivity.
Qed.

(** X17: [getLastOpRevision] stores the revision the remote service returns,
    whatever the session held: it is the one operation that can move the
    cursor back. *)
Theorem getLastOpRevision_overwrites (this later : LineClient.t)
  (answer : service) (revision : Z) :
  _checkAuth this = true ->
  answer _getLastOpRevision = Fulfilled revision ->
  let x := settle answer (result (getLastOpRevision this)) later in
  client_after x = LineClient.set_revision revision later /\
  settled_with x = Fulfilled (VNumber revision) /\
  (revision < LineClient.revision later ->
   LineClient.revision (client_after x) < LineClient.revision later).
Proof.
  intros H Ha. cbv zeta. unfold getLastOpRevision. rewrite H.
  cbn [result snd only settle]. rewrite Ha. cbn. auto.
Qed.

(** X18: [inviteIntoGroup], [acceptGroupInvitation], [sendMessage] and
    [sendChatChecked] hand the promise of their remote call to the caller
    as it is: one call is made, the promise settles as the call does, and
    the client is not touched. *)
Theorem plain_calls_leave_the_client (this later : LineClient.t)
  (answer : service) :
  _checkAuth this = true ->
  let passed (q : request) :=
    mk_settlement later [] [] [q]
      match answer q with
      | Fulfilled r => Fulfilled (VReply q r)
      | Rejected e => Rejected e
      end in
  (forall group contacts,
      settle answer (result (inviteIntoGroup this group contacts)) later
      = passed (_inviteIntoGroup (LineGroup.id group)
                                 (map LineContact.id contacts))) /\
  (forall group,
      settle answer (result (acceptGroupInvitation this group)) later
      = passed (_acceptGroupInvitation (LineGroup.id group))) /\
  (forall message seq,
      settle answer (result (sendMessage this message seq)) later
      = passed (_sendMessage message seq)) /\
  (forall consumer lastMessageId seq,
      settle answer
             (result (sendChatChecked this consumer lastMessageId seq)) later
      = passed (_sendChatChecked consumer lastMessageId seq)).
Proof.
  intro H. cbv zeta.
  unfold inviteIntoGroup, acceptGroupInvitation, sendMessage, sendChatChecked,
    remote.
  rewrite H. cbn [result snd only settle].
  repeat split; intros;
    match goal with
    | |- context [answer ?q] => destruct (answer q)
    end; reflexivity.
Qed.

(** X19: [getRecentMessages] builds its messages when the reply arrives: one per
    message of the reply, in order, each with its receiver looked up in the
    directory of that moment, and its sender looked up under the property
    [_from] of the raw message. *)
Theorem recent_messages_are_resolved_on_arrival (this later : LineClient.t)
  (answer : service) (box : MessageBox.t) (n : Z)
  (messages : list Message.t) :
  _checkAuth this = true ->
  answer (_getRecentMessages (MessageBox.id box) n) = Fulfilled messages ->
  let x := settle answer (result (getRecentMessages this box n)) later in
  client_after x = later /\
  exists built,
    settled_with x = Fulfilled (VMessages built) /\
    map LineMessage.id built = map Message.id messages /\
    map LineMessage.receiver built
    = map (fun m => getContactOrRoomOrGroupById later (Message.to m))
          messages /\
    map LineMessage.sender built
    = map (fun m => getContactOrRoomOrGroupById later (Message._from m))
          messages.
Proof.
  intros H Ha. cbv zeta. unfold getRecentMessages. rewrite H.
  cbn [result snd only settle]. rewrite Ha. cbn [only settle].
  split; [reflexivity|]. eexists. split; [reflexivity|].
  unfold getLineMessageFromMessage. rewrite !map_map. repeat split.
Qed.

(** ** The model classes *)

(** X20: the ids a group or a room lists are the ids of the records it was built
    from, in their order; a group built without a record has the id [null]
    and no member, so no lookup by a string id returns it; the flag of a
    group is the one its constructor was given. *)
Theorem member_ids_of_a_built_entity (group : Group.t) (room : Room.t)
  (isJoined : bool) :
  getMemberIds (new_LineGroup (Some group) isJoined)
  = match Group.members group with
    | Some l => map Contact.mid l
    | None => []
    end /\
  getContactIds (new_LineRoom room)
  = match Room.contacts room with
    | Some l => map Contact.mid l
    | None => []
    end /\
  getMemberIds (new_LineGroup None isJoined) = [] /\
  LineGroup.isJoined (new_LineGroup (Some group) isJoined) = isJoined /\
  (forall this id,
      getGroupById this (JS.str id) <> Some (new_LineGroup None isJoined)).
Proof.
  unfold getMemberIds, getContactIds. cbn.
  destruct (Group.members group), (Room.contacts room);
    rewrite ?map_map; repeat split; auto;
    intros this id Hf; apply find_some in Hf; destruct Hf as [_ Hf];
    discriminate.
Qed.
(** ** Stores whose ids are numerals *)

Lemma comparefn_of_numerals (a b : LineContact.t) :
  is_numeral (LineContact.id a) -> is_numeral (LineContact.id b) ->
  (JS.sign (contact_comparefn a b) = Gt -> by_numeral b a) /\
  (JS.sign (contact_comparefn a b) <> Gt -> by_numeral a b).
Proof.
  intros [qa Ha] [qb Hb]. unfold by_numeral, numeral, contact_comparefn.
  rewrite Ha, Hb. cbn [JS.sub JS.sign]. split.
  - intro H. apply Qgt_alt in H. apply Qlt_le_weak.
    apply Qlt_minus_iff. unfold Qminus in H. exact H.
  - intro H. apply Qle_alt in H. apply Qle_minus_iff.
    apply Qle_minus_iff in H. unfold Qminus in H.
    setoid_replace (qb + - qa)%Q with (0 + - (qa + - qb))%Q by ring.
    exact H.
Qed.

Lemma insert_by_numeral (x : LineContact.t) (l : list LineContact.t) :
  is_numeral (LineContact.id x) ->
  (forall y, In y l -> is_numeral (LineContact.id y)) ->
  Sorted by_numeral l ->
  Sorted by_numeral (JS.insert contact_comparefn x l).
Proof.
  intros Hx. induction l as [|y t IH]; intros Hl Hs; cbn [JS.insert].
  - repeat constructor.
  - pose proof (comparefn_of_numerals x y Hx (Hl y (or_introl eq_refl)))
      as [Hgt Hle].
    inversion Hs as [|? ? Hst Hhd]; subst.
    destruct (JS.sign (contact_comparefn x y)) eqn:E.
    + constructor; [exact Hs|]. constructor. apply Hle. discriminate.
    + constructor; [exact Hs|]. constructor. apply Hle. discriminate.
    + constructor.
      * apply IH; [|exact Hst]. intros z Hz. apply Hl. now right.
      * destruct t as [|z t']; cbn [JS.insert].
        -- constructor. now apply Hgt.
        -- destruct (JS.sign (contact_comparefn x z)).
           ++ constructor. now apply Hgt.
           ++ constructor. now apply Hgt.
           ++ inversion Hhd; subst. now constructor.
Qed.

Lemma sort_by_numeral (l : list LineContact.t) :
  (forall c, In c l -> is_numeral (LineContact.id c)) ->
  Sorted by_numeral (JS.sort contact_comparefn l).
Proof.
  induction l as [|x t IH]; intro H; cbn [JS.sort]; [constructor|].
  apply insert_by_numeral.
  - apply H. now left.
  - intros y Hy.
    apply (Permutation_in _ (sort_permutation contact_comparefn t)) in Hy.
    apply H. now right.
  - apply IH. intros c Hc. apply H. now right.
Qed.

(** X21: when every id the remote returns is the numeral of an integer of
    magnitude at most 2^53 (a number a double holds exactly),
    [refreshContacts] leaves the store in ascending order of the numbers the
    ids denote: the id [10] comes after the id [9]. *)
Theorem refreshContacts_sorts_numerals (this later : LineClient.t)
  (answer : service) (ids : list string) (records : list Contact.t) :
  _checkAuth this = true ->
  answer _getAllContactIds = Fulfilled ids ->
  answer (_getContacts ids) = Fulfilled records ->
  (forall r, In r records -> is_safe_integer (Contact.mid r)) ->
  Sorted by_numeral
         (LineClient.contacts
            (client_after
               (settle answer (result (refreshContacts this)) later))).
Proof.
  intros H Hi Hc Hn.
  destruct (refreshContacts_stores this later answer ids records H Hi Hc)
    as (-> & _).
  unfold LineClient.set_contacts. cbn [LineClient.contacts].
  apply sort_by_numeral. intros c Hin. apply in_map_iff in Hin.
  destruct Hin as (r & <- & Hr).
  destruct (Hn r Hr) as (q & n & Hq & _). now exists q.
Qed.
End Client.

(** * The properties at work on the sample data *)

(** C1 at work: a client at revision 100 processes an operation of revision
    105, then one of revision 103. *)
Lemma revision_is_the_running_maximum_witness :
  (_checkAuth (in_a_group a_host) = true /\
   message_bearing (received 105 "u1" "g1") = true /\
   exists x,
     cycle a_host 1 50
           (a_service (Fulfilled (Some [received 105 "u1" "g1"])) [] [])
           (in_a_group a_host)
     = Some x /\
     LineClient.revision (after x) = Z.max 100 105) /\
  (polled a_host (in_a_group a_host) [105; 103] [105; 105]
          (LineClient.set_revision 105 (in_a_group a_host)) /\
   [105; 105] = running_max 100 [105; 103] /\
   105 = fold_left Z.max [105; 103] 100 /\
   Sorted Z.le [100; 105; 105]).
Proof.
  split.
  - split; [reflexivity|]. split; [reflexivity|].
    apply (proj1 (revision_is_the_running_maximum a_host) 0%nat 50
             (a_service (Fulfilled (Some [received 105 "u1" "g1"])) [] [])
             (in_a_group a_host) (received 105 "u1" "g1") []
             (text_message "u1" "g1"));
      reflexivity.
  - assert (Hp : polled a_host (in_a_group a_host) [105; 103] [105; 105]
                        (LineClient.set_revision 105 (in_a_group a_host))).
    { refine (polled_cycle a_host (in_a_group a_host) [105] [105]
                (LineClient.set_revision 105 (in_a_group a_host))
                (LineClient.set_revision 105 (in_a_group a_host))
                1 50
                (a_service (Fulfilled (Some [received 103 "u1" "g1"])) [] [])
                (received 103 "u1" "g1")
                (mk_run (LineClient.set_revision 105 (in_a_group a_host))
                        _ _ _ _ _)
                _ eq_refl _).
      - refine (polled_cycle a_host (in_a_group a_host) [] []
                  (in_a_group a_host) (in_a_group a_host) 1 50
                  (a_service (Fulfilled (Some [received 105 "u1" "g1"])) [] [])
                  (received 105 "u1" "g1")
                  (mk_run (LineClient.set_revision 105 (in_a_group a_host))
                          _ _ _ _ _)
                  (polled_none _ _) eq_refl _).
        unfold processes. split; [reflexivity|].
        split; [now eexists|]. split; [reflexivity|].
        split; [now eexists|]. reflexivity.
      - unfold processes. split; [reflexivity|].
        split; [now eexists|]. split; [reflexivity|].
        split; [now eexists|]. reflexivity. }
    split; [exact Hp|].
    exact (proj2 (revision_is_the_running_maximum a_host) _ _ _ _ Hp).
Defined.

(** C3, on the code: the client [signed_in] holds a token and the fetch
    answers with the empty list.  The cycle makes the fetch, emits nothing,
    returns [undefined] and leaves the client, its revision included, as it
    was; but the error [No Operation.] is neither raised nor printed,
    because the guard [!operations] holds of no array.  On the answer
    [null] the same guard raises that error and the cycle prints it. *)
Theorem an_empty_list_is_not_reported :
  cycle a_host 1 50 (a_service (Fulfilled (Some [])) [] []) signed_in
  = Some (mk_run signed_in [] [] [_fetchOperations 100 50] []
            (Fulfilled VUndefined)) /\
  ~ reports_no_operation
      (mk_run signed_in [] [] [_fetchOperations 100 50] []
         (Fulfilled VUndefined)) /\
  cycle a_host 1 50 (a_service (Fulfilled None) [] []) signed_in
  = Some (mk_run signed_in [] [console_error (Error "No Operation.")]
            [_fetchOperations 100 50] [] (Fulfilled VUndefined)) /\
  reports_no_operation
    (mk_run signed_in [] [console_error (Error "No Operation.")]
       [_fetchOperations 100 50] [] (Fulfilled VUndefined)).
Proof.
  split; [reflexivity|]. split; [|split; [reflexivity|]].
  - unfold reports_no_operation. simpl. tauto.
  - unfold reports_no_operation. simpl. now left.
Qed.

(** The two ways at work, on the empty list. *)
Lemma fetch_without_operations_witness :
  _checkAuth signed_in = true /\
  a_service (Fulfilled (Some [])) [] [] (_fetchOperations 100 50)
  = Fulfilled (Some []) /\
  cycle a_host 1 50 (a_service (Fulfilled (Some [])) [] []) signed_in
  = Some (mk_run signed_in [] [] [_fetchOperations 100 50] []
            (Fulfilled VUndefined)).
Proof.
  split; [reflexivity|]. split; [reflexivity|].
  apply (proj2 (fetch_without_operations a_host 1 50
                  (a_service (Fulfilled (Some [])) [] []) signed_in
                  eq_refl)).
  reflexivity.
Defined.

(** C9 at work: the fetch fails with a [TalkException] of code 9. *)
Lemma session_conflict_is_fatal_witness :
  _checkAuth signed_in = true /\
  exists x,
    cycle a_host 1 50 (a_failing_service (TalkException 9 "conflict"))
          signed_in
    = Some x /\
    completion x = Rejected (Error "user logged in on another machine") /\
    after x = signed_in.
Proof.
  split; [reflexivity|].
  destruct (session_conflict_is_fatal a_host 0 50
              (a_failing_service (TalkException 9 "conflict")) signed_in
              eq_refl) as (x & Hx & _ & H9 & _).
  exists x. split; [exact Hx|].
  destruct (H9 "conflict" eq_refl) as (Hc & Ha & _). now split.
Defined.

(** C10 at work: the client leaves the group it holds, and fails to leave
    the room it holds. *)
Lemma leave_resolves_with_the_outcome_of_the_call_witness :
  _checkAuth (in_a_group a_host) = true /\
  LineClient.groups (in_a_group a_host) = [friends a_host] /\
  (let x := settle (a_service (Fulfilled None) [] [])
                   (result (leaveGroup (in_a_group a_host) (friends a_host)))
                   (in_a_group a_host) in
   settled_with x = Fulfilled (VBoolean true) /\
   LineClient.groups (client_after x) = [] /\
   LineClient.rooms (client_after x) = [chat a_host]) /\
  (let x := settle (a_failing_service (Error "timeout"))
                   (result (leaveRoom (in_a_group a_host) (chat a_host)))
                   (in_a_group a_host) in
   settled_with x = Fulfilled (VBoolean false) /\
   client_after x = in_a_group a_host).
Proof.
  split; [reflexivity|]. split; [reflexivity|].
  destruct (leave_resolves_with_the_outcome_of_the_call
              (in_a_group a_host) (friends a_host) (chat a_host) eq_refl)
    as ((_ & _ & Hg) & (_ & _ & Hr)).
  split.
  - destruct (Hg (a_service (Fulfilled None) [] []) (in_a_group a_host))
      as (_ & _ & Hs & Hstore & _ & Hrooms & _).
    cbv zeta. split; [exact Hs|]. split; [exact Hstore | exact Hrooms].
  - destruct (Hr (a_failing_service (Error "timeout")) (in_a_group a_host))
      as (_ & _ & Hs & Hc).
    cbv zeta. split; [exact Hs | exact Hc].
Defined.

(** * The further properties at work on the sample data *)

Lemma name_of_value_round_trip_witness :
  NoDup (map snd some_OpType) /\
  getOpTypeNameFromValue some_OpType 25 = Some "SEND_MESSAGE" /\
  getOpTypeNameFromValue some_OpType 7 = None.
Proof.
  assert (Hnd : NoDup (map snd some_OpType)).
  { repeat constructor; simpl; intuition discriminate. }
  destruct (name_of_value_round_trip some_OpType Hnd) as (H1 & H2 & _).
  split; [exact Hnd|]. split.
  - apply H1. simpl. auto.
  - apply H2. simpl. intuition discriminate.
Defined.

Lemma refreshed_contacts_resolve_witness :
  _checkAuth signed_in = true /\
  exists c,
    getContactById
      (client_after
         (settle (a_service (Fulfilled None)
                            [record "c3"; record "c1"; record "c2"] [])
                 (result (refreshContacts a_host signed_in)) signed_in))
      (JS.str "c1")
    = Some c /\
    LineContact.id c = "c1".
Proof.
  split; [reflexivity|].
  destruct (proj1 (refreshed_contacts_resolve a_host signed_in signed_in
                     (a_service (Fulfilled None)
                                [record "c3"; record "c1"; record "c2"] [])
                     ["c3"; "c1"; "c2"]
                     [record "c3"; record "c1"; record "c2"]
                     eq_refl eq_refl eq_refl "c1"))
    as (c & Hc & Hid & _).
  - simpl. auto.
  - exists c. now split.
Defined.

Lemma refreshContacts_failure_witness :
  _checkAuth signed_in = true /\
  LineClient.authToken
    (client_after
       (settle (a_failing_service (TalkException 8 "expired"))
               (result (refreshContacts a_host signed_in)) signed_in))
  = None /\
  settled_with
    (settle (a_failing_service (TalkException 8 "expired"))
            (result (refreshContacts a_host signed_in)) signed_in)
  = Fulfilled (VError (TalkException 8 "expired")).
Proof.
  split; [reflexivity|].
  destruct (refreshContacts_failure a_host signed_in signed_in
              (a_failing_service (TalkException 8 "expired"))
              (TalkException 8 "expired") eq_refl (or_introl eq_refl))
    as (Hs & _ & H8 & _).
  destruct (H8 "expired" eq_refl) as (_ & Ht & _).
  now split.
Defined.

Lemma addGroupsWithIds_appends_witness :
  _checkAuth signed_in = true /\
  LineClient.groups (in_a_group a_host) = [friends a_host] /\
  (List.length
     (LineClient.groups
        (client_after
           (settle (a_group_service [] [] (map a_group))
                   (result (addGroupsWithIds a_host signed_in ["g1"] false))
                   (in_a_group a_host))))
   = 2)%nat.
Proof.
  split; [reflexivity|]. split; [reflexivity|].
  pose proof (addGroupsWithIds_appends a_host signed_in (in_a_group a_host)
                (a_group_service [] [] (map a_group)) ["g1"] false eq_refl)
    as H.
  exact (proj1 (proj2 H)).
Defined.

Lemma refreshGroups_adds_joined_and_invited_witness :
  _checkAuth signed_in = true /\
  exists final printed asked,
    settle_all 2 (a_group_service ["g1"] ["g2"] (map a_group))
               (started (refreshGroups a_host signed_in)) signed_in
    = Some (final, printed, asked) /\
    Permutation (LineClient.groups final)
                [new_LineGroup a_host (Some (a_group "g1")) true;
                 new_LineGroup a_host (Some (a_group "g2")) false].
Proof.
  split; [reflexivity|].
  destruct (refreshGroups_adds_joined_and_invited a_host 0 signed_in
              (a_group_service ["g1"] ["g2"] (map a_group))
              ["g1"] ["g2"] [a_group "g1"] [a_group "g2"]
              (started (refreshGroups a_host signed_in))
              eq_refl eq_refl eq_refl eq_refl eq_refl (Permutation_refl _))
    as (_ & _ & final & printed & asked & Hs & Hp & _).
  exists final, printed, asked. split; [exact Hs | exact Hp].
Defined.

Lemma created_group_is_stored_last_witness :
  _checkAuth signed_in = true /\
  LineClient.groups
    (client_after
       (settle (a_service (Fulfilled None) [] [])
               (result (createGroupWithIds a_host signed_in "team" ["u1"]))
               (in_a_group a_host)))
  = [friends a_host; new_LineGroup a_host (Some (a_group "team")) true].
Proof.
  split; [reflexivity|].
  exact (proj1 (created_group_is_stored_last a_host signed_in
                  (in_a_group a_host) (a_service (Fulfilled None) [] [])
                  "team" ["u1"] (a_group "team") eq_refl eq_refl)).
Defined.

Lemma create_then_leave_restores_the_store_witness :
  _checkAuth signed_in = true /\
  ~ In (JS.str "team")
       (map LineGroup.id (LineClient.groups (in_a_group a_host))) /\
  let x :=
    settle (a_service (Fulfilled None) [] [])
           (result (createGroupWithIds a_host signed_in "team" ["u1"]))
           (in_a_group a_host) in
  LineClient.groups
    (client_after
       (settle (a_service (Fulfilled None) [] [])
               (result (leaveGroup (client_after x)
                          (new_LineGroup a_host (Some (a_group "team")) true)))
               (client_after x)))
  = [friends a_host].
Proof.
  assert (Hnot : ~ In (JS.str "team")
                      (map LineGroup.id
                           (LineClient.groups (in_a_group a_host)))).
  { simpl. intuition discriminate. }
  split; [reflexivity|]. split; [exact Hnot|].
  exact (proj1 (proj2 (create_then_leave_restores_the_store a_host signed_in
                         (in_a_group a_host)
                         (a_service (Fulfilled None) [] [])
                         "team" ["u1"] (a_group "team")
                         eq_refl eq_refl eq_refl eq_refl Hnot))).
Defined.

Lemma leave_of_an_absent_entry_witness :
  _checkAuth signed_in = true /\
  ~ In (LineRoom.id (chat a_host))
       (map LineRoom.id (LineClient.rooms signed_in)) /\
  answered
    (settle (a_service (Fulfilled None) [] [])
            (result (LineRoom_leave signed_in (chat a_host))) signed_in)
  = [_leaveRoom "r1"].
Proof.
  split; [reflexivity|]. split; [intros []|].
  exact (proj1 (proj1 (leave_of_an_absent_entry signed_in signed_in
                         (a_service (Fulfilled None) [] [])
                         (friends a_host) (chat a_host) eq_refl)
                      (fun H => H) eq_refl)).
Defined.

Lemma accepting_does_not_mark_joined_witness :
  _checkAuth signed_in = true /\
  LineGroup_leave
    (client_after
       (settle (a_service (Fulfilled None) [] [])
               (result (LineGroup_acceptGroupInvitation signed_in
                          (new_LineGroup a_host (Some (a_group "g2")) false)))
               signed_in))
    (new_LineGroup a_host (Some (a_group "g2")) false)
  = only signed_in (reject (Error "You are not joined to group")).
Proof.
  split; [reflexivity|].
  destruct (proj2 (accepting_does_not_mark_joined signed_in signed_in
                     (a_service (Fulfilled None) [] [])
                     (new_LineGroup a_host (Some (a_group "g2")) false)
                     eq_refl) eq_refl)
    as (_ & _ & _ & H).
  exact H.
Defined.

Lemma room_calls_carry_no_id_witness :
  _checkAuth signed_in = true /\
  issued (createRoomWithContacts a_host signed_in
            [new_LineContact a_host (record "u1")])
  = [_createRoom []].
Proof.
  split; [reflexivity|].
  destruct (room_calls_carry_no_id a_host signed_in (chat a_host) "team"
              [new_LineContact a_host (record "u1")] eq_refl)
    as (_ & _ & H & _).
  exact H.
Defined.

Lemma a_cycle_touches_only_the_revision_witness :
  exists x,
    cycle a_host 1 50
          (a_service (Fulfilled (Some [received 105 "u1" "g1"])) [] [])
          (in_a_group a_host)
    = Some x /\
    after x = LineClient.set_revision (LineClient.revision (after x))
                (in_a_group a_host) /\
    100 <= LineClient.revision (after x).
Proof.
  eexists. split; [reflexivity|].
  match goal with
  | |- after ?x = _ /\ _ =>
      destruct (a_cycle_touches_only_the_revision a_host 1 50
                  (a_service (Fulfilled (Some [received 105 "u1" "g1"])) [] [])
                  (in_a_group a_host) x eq_refl) as (Ha & Hr & _)
  end.
  split; [exact Ha | exact Hr].
Defined.

Lemma polling_stalls_without_a_message_witness :
  _checkAuth signed_in = true /\
  poll a_host 3 1 50
       (a_service
          (Fulfilled (Some [Operation.mk (OpType.OTHER 48) 120 None])) [] [])
       signed_in
  = Some (signed_in,
          repeat (Fulfilled
                    (VOperation (Operation.mk (OpType.OTHER 48) 120 None)))
                 3).
Proof.
  split; [reflexivity|].
  exact (polling_stalls_without_a_message a_host 3 1 50
           (a_service
              (Fulfilled (Some [Operation.mk (OpType.OTHER 48) 120 None]))
              [] [])
           signed_in (Operation.mk (OpType.OTHER 48) 120 None) []
           eq_refl eq_refl (or_introl eq_refl)).
Defined.

Lemma remote_errors_are_passed_on_witness :
  _checkAuth signed_in = true /\
  settle (a_failing_service (Error "timeout"))
         (result (getLastOpRevision signed_in)) signed_in
  = mk_settlement signed_in [] [] [_getLastOpRevision]
      (Rejected (Error "timeout")).
Proof.
  split; [reflexivity|].
  exact (proj1 (remote_errors_are_passed_on a_host signed_in signed_in
                  (a_failing_service (Error "timeout")) (Error "timeout")
                  eq_refl) eq_refl).
Defined.

Lemma getLastOpRevision_overwrites_witness :
  _checkAuth signed_in = true /\
  LineClient.revision signed_in = 100 /\
  LineClient.revision
    (client_after
       (settle (a_service (Fulfilled None) [] [])
               (result (getLastOpRevision signed_in)) signed_in))
  < 100.
Proof.
  split; [reflexivity|]. split; [reflexivity|].
  destruct (getLastOpRevision_overwrites signed_in signed_in
              (a_service (Fulfilled None) [] []) 0 eq_refl eq_refl)
    as (_ & _ & H).
  apply H. reflexivity.
Defined.

Lemma plain_calls_leave_the_client_witness :
  _checkAuth signed_in = true /\
  settle (a_service (Fulfilled None) [] [])
         (result (sendMessage signed_in (text_message "me" "u1") 0))
         signed_in
  = mk_settlement signed_in [] [] [_sendMessage (text_message "me" "u1") 0]
      (Fulfilled (VReply (_sendMessage (text_message "me" "u1") 0)
                         (text_message "me" "u1"))).
Proof.
  split; [reflexivity|].
  destruct (plain_calls_leave_the_client signed_in signed_in
              (a_service (Fulfilled None) [] []) eq_refl)
    as (_ & _ & H & _).
  exact (H (text_message "me" "u1") 0).
Defined.

Lemma recent_messages_are_resolved_on_arrival_witness :
  _checkAuth signed_in = true /\
  exists built,
    settled_with
      (settle (a_history_service [text_message "u1" "g1"])
              (result (getRecentMessages signed_in
                         (MessageBox.mk "g1" MIDType.GROUP) 1))
              (in_a_group a_host))
    = Fulfilled (VMessages built) /\
    map LineMessage.receiver built = [Some (AGroup (friends a_host))].
Proof.
  split; [reflexivity|].
  destruct (recent_messages_are_resolved_on_arrival signed_in
              (in_a_group a_host) (a_history_service [text_message "u1" "g1"])
              (MessageBox.mk "g1" MIDType.GROUP) 1 [text_message "u1" "g1"]
              eq_refl eq_refl)
    as (_ & built & Hb & _ & Hr & _).
  exists built. split; [exact Hb | exact Hr].
Defined.

Lemma refreshContacts_sorts_numerals_witness :
  _checkAuth signed_in = true /\
  (forall r, In r [record "10"; record "9"; record "2"] ->
             is_safe_integer (Contact.mid r)) /\
  Sorted by_numeral
    (LineClient.contacts
       (client_after
          (settle (a_service (Fulfilled None)
                             [record "10"; record "9"; record "2"] [])
                  (result (refreshContacts a_host signed_in)) signed_in))) /\
  map LineContact.id
    (LineClient.contacts
       (client_after
          (settle (a_service (Fulfilled None)
                             [record "10"; record "9"; record "2"] [])
                  (result (refreshContacts a_host signed_in)) signed_in)))
  = ["2"; "9"; "10"].
Proof.
  assert (Hn : forall r, In r [record "10"; record "9"; record "2"] ->
                         is_safe_integer (Contact.mid r)).
  { intros r [<-|[<-|[<-|[]]]];
      [exists (numeral "10"), 10 | exists (numeral "9"), 9
       | exists (numeral "2"), 2];
      (split; [reflexivity|]); (split; [vm_compute; reflexivity | lia]). }
  split; [reflexivity|]. split; [exact Hn|]. split; [|reflexivity].
  exact (refreshContacts_sorts_numerals a_host signed_in signed_in
           (a_service (Fulfilled None)
                      [record "10"; record "9"; record "2"] [])
           ["10"; "9"; "2"] [record "10"; record "9"; record "2"]
           eq_refl eq_refl eq_refl Hn).
Defined.
